(** * Orbital mechanics simulator: the physics engine and its specification

    A shallow embedding of the engine of [orbital_simulator.py]
    ([CelestialBody], [PhysicsEngine], [OrbitalSimulator]) and the proofs of
    the properties its specification states about it.

    Numbers.  Python floats are modelled by the real numbers [R]: every
    statement below is a statement in exact arithmetic.  Rounding, NaN and
    the infinities of IEEE arithmetic are outside the model; a division by
    zero performed by numpy (which returns NaN or Inf and only warns) is the
    total division of [R], a division by zero performed by Python itself
    raises [ZeroDivisionError].

    Arrays.  After [__post_init__] every position and velocity is a numpy
    array of shape (3,); such an array is a [np.ndarray] with three
    components.  The inputs of [__post_init__] are lists of any length.

    Objects.  A Python list of bodies holds object references.  The field
    [oid] of a body is the identity of the Python object (what [is]
    compares); it is not a dataclass field.  A list of bodies models a
    Python list of pairwise distinct objects; values are immutable here, so
    the [.copy()] calls of the source are the identity.

    Exceptions.  A function that only reads returns a [result]; a method
    that mutates [self] returns an [outcome], which carries the state
    reached when the exception was raised. *)

From Stdlib Require Import Reals Lra Lia ZArith.
From stdpp Require Import base list gmap strings.

Open Scope R_scope.

(** ** Exceptions *)

Inductive exn : Type :=
  | ValueError (msg : string)
  | ZeroDivisionError
  | KeyError (key : string)
  | IndexError.

Inductive result (A : Type) : Type :=
  | Ok (a : A)
  | Raise (e : exn).
Arguments Ok {A} a.
Arguments Raise {A} e.

#[global] Instance result_ret : MRet result := fun _ a => Ok a.
#[global] Instance result_bind : MBind result :=
  fun _ _ f r => match r with Ok a => f a | Raise e => Raise e end.

Inductive outcome (S : Type) : Type :=
  | Normal (s : S)
  | Raised (e : exn) (s : S).
Arguments Normal {S} s.
Arguments Raised {S} e s.

Definition state_of {S} (o : outcome S) : S :=
  match o with Normal s => s | Raised _ s => s end.

Definition raised_of {S} (o : outcome S) : option exn :=
  match o with Normal _ => None | Raised e _ => Some e end.

(** [o >>> k]: continue with [k] unless [o] raised. *)
Definition and_then {S} (o : outcome S) (k : S -> outcome S) : outcome S :=
  match o with Normal s => k s | Raised e s => Raised e s end.
Infix ">>>" := and_then (at level 61, left associativity).

(** [l[i]] of Python. *)
Definition getitem {A} (l : list A) (i : nat) : result A :=
  match l !! i with Some a => Ok a | None => Raise IndexError end.

(** [for i, x in enumerate(l): x.<field> = body i x], from index [i] on;
    the elements before the one whose update raises stay updated. *)
Fixpoint for_enumerate {A} (body : nat -> A -> result A) (i : nat)
    (l : list A) : outcome (list A) :=
  match l with
  | [] => Normal []
  | x :: l' =>
      match body i x with
      | Raise e => Raised e (x :: l')
      | Ok x' =>
          match for_enumerate body (S i) l' with
          | Normal r => Normal (x' :: r)
          | Raised e r => Raised e (x' :: r)
          end
      end
  end.

(** [for x in l: <statements on self>]: the loop stops at the first
    exception, and what was done before stays done. *)
Fixpoint for_in {A S} (body : A -> S -> outcome S) (l : list A) (s : S)
    : outcome S :=
  match l with
  | [] => Normal s
  | x :: l' => body x s >>> for_in body l'
  end.

(** [for x in l: acc = body acc x] on a local variable [acc]. *)
Fixpoint for_each {A B} (body : B -> A -> result B) (acc : B) (l : list A)
    : result B :=
  match l with
  | [] => Ok acc
  | x :: l' => acc' ← body acc x; for_each body acc' l'
  end.

(** [int(x)] of a float: truncation toward zero.  In [run_simulation] its
    argument is the quotient [duration / self.dt], here the exact one; the
    code truncates the rounded quotient of the two floats, which can lie on
    the other side of an integer.  The statements on the number of steps
    are therefore made on the value of [int(duration / self.dt)]. *)
Definition int (x : R) : Z :=
  if Rle_dec 0 x then Int_part x else (- Int_part (- x))%Z.

(** [a % b] on Python integers. *)
Definition py_mod (a b : Z) : result Z :=
  if (b =? 0)%Z then Raise ZeroDivisionError else Ok (a mod b)%Z.

(** [a / b] on Python floats. *)
Definition py_truediv (a b : R) : result R :=
  if Req_dec_T b 0 then Raise ZeroDivisionError else Ok (a / b).

(** ** numpy arrays of shape (3,) *)

Module np.

Record ndarray : Type := array { c0 : R; c1 : R; c2 : R }.

Definition zeros3 : ndarray := array 0 0 0.

Definition add (u v : ndarray) : ndarray :=
  array (c0 u + c0 v) (c1 u + c1 v) (c2 u + c2 v).
Definition sub (u v : ndarray) : ndarray :=
  array (c0 u - c0 v) (c1 u - c1 v) (c2 u - c2 v).
(** scalar * array *)
Definition smul (s : R) (v : ndarray) : ndarray :=
  array (s * c0 v) (s * c1 v) (s * c2 v).
(** array * scalar *)
Definition muls (v : ndarray) (s : R) : ndarray :=
  array (c0 v * s) (c1 v * s) (c2 v * s).
(** array / scalar.  numpy does not raise on a divisor that is zero: it
    warns and returns nan or inf, which are not real numbers.  For such a
    divisor the value below is not the one of the code; statements on the
    values of a quotient are made for divisors that are not zero. *)
Definition div (v : ndarray) (s : R) : ndarray :=
  array (c0 v / s) (c1 v / s) (c2 v / s).
Definition dot (u v : ndarray) : R :=
  c0 u * c0 v + c1 u * c1 v + c2 u * c2 v.
Definition cross (u v : ndarray) : ndarray :=
  array (c1 u * c2 v - c2 u * c1 v)
        (c2 u * c0 v - c0 u * c2 v)
        (c0 u * c1 v - c1 u * c0 v).
(** [np.linalg.norm] *)
Definition norm (v : ndarray) : R :=
  sqrt (c0 v * c0 v + c1 v * c1 v + c2 v * c2 v).

End np.

Declare Scope np_scope.
Delimit Scope np_scope with np.
Bind Scope np_scope with np.ndarray.
Infix "^+" := np.add (at level 50, left associativity) : np_scope.
Infix "^-" := np.sub (at level 50, left associativity) : np_scope.
Infix "*^" := np.smul (at level 40, left associativity) : np_scope.
Infix "^*" := np.muls (at level 40, left associativity) : np_scope.
Infix "^/" := np.div (at level 40, left associativity) : np_scope.

(** ** Physical constants *)

Definition G : R := 6.67430e-11.
Definition AU : R := 1.496e11.
Definition EARTH_MASS : R := 5.972e24.
Definition SUN_MASS : R := 1.989e30.

(** ** CelestialBody *)

Module CelestialBody.

Record t : Type := mk {
  oid : nat;
  name : string;
  mass : R;
  position : np.ndarray;
  velocity : np.ndarray;
  radius : R;
  color : string;
  is_3d : bool
}.

Definition set_position (p : np.ndarray) (b : t) : t :=
  mk (oid b) (name b) (mass b) p (velocity b) (radius b) (color b) (is_3d b).
Definition set_velocity (v : np.ndarray) (b : t) : t :=
  mk (oid b) (name b) (mass b) (position b) v (radius b) (color b) (is_3d b).

(** The constructor: the generated [__init__] stores the arguments and
    calls [__post_init__].  [id] is the identity of the new object;
    [position] and [velocity] are the sequences the caller passes:
    a sequence of length 2 gets [0.0] appended ([np.append]), and the
    [is_3d] that the caller passes is overwritten. *)
Definition __post_init__ (id : nat) (name : string) (mass : R)
    (position velocity : list R) (radius : R) (color : string)
    (is_3d : bool) : result t :=
  '(position, is_3d) ←
    match position with
    | [x; y] => Ok (np.array x y 0, false)
    | [x; y; z] => Ok (np.array x y z, true)
    | _ => Raise (ValueError "Position must be 2D [x,y] or 3D [x,y,z]")
    end;
  velocity ←
    match velocity with
    | [vx; vy] => Ok (np.array vx vy 0)
    | [vx; vy; vz] => Ok (np.array vx vy vz)
    | _ => Raise (ValueError "Velocity must be 2D [vx,vy] or 3D [vx,vy,vz]")
    end;
  Ok (mk id name mass position velocity radius color is_3d).

(** [a != b] with the [__eq__] that [@dataclass] generates: identical
    objects are equal; otherwise the fields are compared in order, and the
    comparison stops at the first pair that differs.  [name] and [mass]
    are the first two fields; the third one, [position], is a numpy array
    of three elements, whose comparison has no truth value. *)
Definition ne (a b : t) : result bool :=
  if decide (oid a = oid b) then Ok false
  else if negb (String.eqb (name a) (name b)) then Ok true
  else if Req_dec_T (mass a) (mass b) then
    Raise (ValueError "The truth value of an array with more than one element is ambiguous. Use a.any() or a.all()")
  else Ok true.

End CelestialBody.

(** ** PhysicsEngine *)

Module PhysicsEngine.

Import CelestialBody.
Open Scope np_scope.

Record t : Type := mk { bodies : list CelestialBody.t; time : R }.

Definition set_bodies (bs : list CelestialBody.t) (self : t) : t :=
  mk bs (time self).

Definition __init__ (bodies : list CelestialBody.t) : t := mk bodies 0.

Definition gravitational_force (body1 body2 : CelestialBody.t) : np.ndarray :=
  let r_vec := position body2 ^- position body1 in
  let r := np.norm r_vec in
  if Rlt_dec r 1e6 then np.zeros3
  else
    let force_magnitude := G * mass body1 * mass body2 / r ^ 2 in
    let force_direction := r_vec ^/ r in
    force_magnitude *^ force_direction.

Definition calculate_forces (self : t) (body : CelestialBody.t)
    : result np.ndarray :=
  for_each
    (fun net_force other_body =>
       differs ← ne other_body body;
       if differs : bool then
         let force := gravitational_force body other_body in
         Ok (net_force ^+ force)
       else Ok net_force)
    np.zeros3 (bodies self).

Definition acceleration (self : t) (body : CelestialBody.t)
    : result np.ndarray :=
  force ← calculate_forces self body;
  Ok (force ^/ mass body).

(** [for i, body in enumerate(self.bodies): ...]: a loop that updates the
    bodies of the engine in place. *)
Definition update_bodies (body : nat -> CelestialBody.t -> result CelestialBody.t)
    (self : t) : outcome t :=
  match for_enumerate body 0 (bodies self) with
  | Normal bs => Normal (set_bodies bs self)
  | Raised e bs => Raised e (set_bodies bs self)
  end.

(** A computation that only reads [self]: if it raises, [self] is as it
    was. *)
Definition try {A} (r : result A) (self : t) (k : A -> outcome t) : outcome t :=
  match r with Ok a => k a | Raise e => Raised e self end.

(** The loops update the bodies in place, each entry of the list once: the
    entries are pairwise distinct objects (an object listed twice would be
    updated twice by each loop of the source). *)
Definition update_positions_velocities (self : t) (dt : R) : outcome t :=
  (* Store current positions and velocities *)
  let old_positions := position <$> bodies self in
  let old_velocities := velocity <$> bodies self in
  (* Calculate accelerations *)
  try (mapM (acceleration self) (bodies self)) self (fun accelerations =>
  (* Update velocities using current acceleration *)
  update_bodies (fun i body =>
      a ← getitem accelerations i;
      Ok (set_velocity (velocity body ^+ a ^* dt) body)) self
  >>> (* Update positions using new velocities *)
  update_bodies (fun i body =>
      Ok (set_position (position body ^+ velocity body ^* dt) body))
  >>> (fun self =>
  (* Calculate new accelerations with updated positions *)
  try (mapM (acceleration self) (bodies self)) self (fun new_accelerations =>
  (* Correct velocities using average acceleration *)
  update_bodies (fun i body =>
      a ← getitem accelerations i;
      new_a ← getitem new_accelerations i;
      old_v ← getitem old_velocities i;
      let avg_acceleration := (a ^+ new_a) ^/ 2 in
      Ok (set_velocity (old_v ^+ avg_acceleration ^* dt) body)) self
  >>> (fun self => Normal (mk (bodies self) (time self + dt)))))).

Definition get_orbital_energy (self : t) (body : CelestialBody.t) : result R :=
  (* Kinetic energy *)
  let kinetic := 0.5 * mass body * np.dot (velocity body) (velocity body) in
  (* Potential energy *)
  potential ←
    for_each
      (fun potential other_body =>
         differs ← ne other_body body;
         if differs : bool then
           let r := np.norm (position body ^- position other_body) in
           if Rgt_dec r 1e6 then
             Ok (potential - G * mass body * mass other_body / r)
           else Ok potential
         else Ok potential)
      0 (bodies self);
  Ok (kinetic + potential).

Definition get_angular_momentum (body : CelestialBody.t) : np.ndarray :=
  mass body *^ np.cross (position body) (velocity body).

End PhysicsEngine.

(** ** OrbitalSimulator *)

Module OrbitalSimulator.

Import CelestialBody.

Record t : Type := mk {
  physics_engine : PhysicsEngine.t;
  dt : R;
  time : R;
  trajectories : gmap string (list np.ndarray)
}.

Definition set_physics_engine (pe : PhysicsEngine.t) (self : t) : t :=
  mk pe (dt self) (time self) (trajectories self).
Definition set_time (x : R) (self : t) : t :=
  mk (physics_engine self) (dt self) x (trajectories self).
Definition set_trajectories (d : gmap string (list np.ndarray)) (self : t) : t :=
  mk (physics_engine self) (dt self) (time self) d.

Definition default_dt : R := 3600.

(** [{body.name: [] for body in bodies}] *)
Definition empty_trajectories (bodies : list CelestialBody.t)
    : gmap string (list np.ndarray) :=
  foldl (fun d body => <[name body := []]> d) ∅ bodies.

Definition __init__ (bodies : list CelestialBody.t) (dt : R) : t :=
  mk (PhysicsEngine.__init__ bodies) dt 0 (empty_trajectories bodies).

Definition step (self : t) : outcome t :=
  (* Store current positions for trajectory tracking *)
  for_in (fun body self =>
      match trajectories self !! name body with
      | None => Raised (KeyError (name body)) self
      | Some history =>
          Normal (set_trajectories
                    (<[name body := history ++ [position body]]> (trajectories self))
                    self)
      end)
    (PhysicsEngine.bodies (physics_engine self)) self
  >>> (* Update physics *)
  (fun self =>
     match PhysicsEngine.update_positions_velocities (physics_engine self) (dt self) with
     | Normal pe => Normal (set_physics_engine pe self)
     | Raised e pe => Raised e (set_physics_engine pe self)
     end)
  >>> (fun self => Normal (set_time (time self + dt self) self)).

(** [steps_per_frame] is not used by the source.  [print] does not change
    the simulator and is left out, with the progress it prints; the
    condition that guards it is evaluated in every iteration, and can
    raise. *)
Definition run_simulation (self : t) (duration : R) : outcome t :=
  match py_truediv duration (dt self) with
  | Raise e => Raised e self
  | Ok quotient =>
      let total_steps := int quotient in
      for_in (fun step_index self =>
          step self >>> (fun self =>
            match py_mod step_index (total_steps / 10) with
            | Raise e => Raised e self
            | Ok _ => Normal self
            end))
        (seqZ 0 total_steps) self
  end.

(** [x = CelestialBody(...)] inside a method: an exception of the
    constructor leaves [self] as it is at that point. *)
Definition construct (r : result CelestialBody.t) (self : t)
    (k : CelestialBody.t -> outcome t) : outcome t :=
  match r with Ok b => k b | Raise e => Raised e self end.

(** [self.physics_engine.bodies.clear(); self.trajectories.clear()].  The
    list that is emptied is the list object given to the constructor; what
    its other holders see of it is not modelled. *)
Definition clear (self : t) : t :=
  mk (PhysicsEngine.set_bodies [] (physics_engine self)) (dt self) (time self) ∅.

(** [self.physics_engine.bodies = bodies;
     self.trajectories = {body.name: [] for body in bodies}] *)
Definition install (bodies : list CelestialBody.t) (self : t) : t :=
  mk (PhysicsEngine.set_bodies bodies (physics_engine self)) (dt self)
     (time self) (empty_trajectories bodies).

(** The objects are created in the order of the source; [next_id] is the
    identity of the first one. *)
Definition create_solar_system (next_id : nat) (self : t) : outcome t :=
  (* Clear existing bodies *)
  let self := clear self in
  (* Sun at center *)
  construct (__post_init__ next_id "Sun" SUN_MASS [0; 0] [0; 0]
               20 "yellow" true) self (fun sun =>
  (* Earth in circular orbit *)
  let earth_distance := 1.496e11 in
  let earth_speed := sqrt (G * SUN_MASS / earth_distance) in
  construct (__post_init__ (next_id + 1) "Earth" EARTH_MASS
               [earth_distance; 0] [0; earth_speed] 5 "blue" true) self
    (fun earth =>
  (* Moon orbiting Earth *)
  let moon_distance := 3.844e8 in
  let moon_speed := sqrt (G * EARTH_MASS / moon_distance) + earth_speed in
  construct (__post_init__ (next_id + 2) "Moon" 7.342e22
               [earth_distance + moon_distance; 0] [0; moon_speed]
               2 "gray" true) self (fun moon =>
  (* Add bodies to simulation *)
  Normal (install [sun; earth; moon] self)))).

Definition create_3d_solar_system (next_id : nat) (self : t) : outcome t :=
  (* Clear existing bodies *)
  let self := clear self in
  (* Sun at center *)
  construct (__post_init__ next_id "Sun" SUN_MASS [0; 0; 0] [0; 0; 0]
               20 "yellow" true) self (fun sun =>
  (* Earth in inclined orbit *)
  let earth_distance := 1.496e11 in
  let earth_speed := sqrt (G * SUN_MASS / earth_distance) in
  construct (__post_init__ (next_id + 1) "Earth" EARTH_MASS
               [earth_distance; 0; 0] [0; earth_speed; 0] 5 "blue" true) self
    (fun earth =>
  (* Moon with 3D orbital motion *)
  let moon_distance := 3.844e8 in
  let moon_speed := sqrt (G * EARTH_MASS / moon_distance) + earth_speed in
  construct (__post_init__ (next_id + 2) "Moon" 7.342e22
               [earth_distance + moon_distance; 0; 0] [0; moon_speed; 1000]
               2 "gray" true) self (fun moon =>
  (* Add a planet with inclined orbit *)
  let planet_distance := 2.5 * AU in
  let planet_speed := sqrt (G * SUN_MASS / planet_distance) * 0.8 in
  construct (__post_init__ (next_id + 3) "Mars" (EARTH_MASS * 0.1)
               [planet_distance; 0; planet_distance * 0.1]
               [0; planet_speed; planet_speed * 0.1] 4 "red" true) self
    (fun planet =>
  (* Add bodies to simulation *)
  Normal (install [sun; earth; moon; planet] self))))).

(** [n] successive calls of [step()], stopped by the first exception. *)
Fixpoint steps (n : nat) (self : t) : outcome t :=
  match n with
  | O => Normal self
  | S n' => step self >>> steps n'
  end.

End OrbitalSimulator.

(** ** interactive_gui.py: saving and loading a simulation

    The file dialogs, the message boxes and the redrawing are left out.  A
    file name is what the dialog returned, the empty string when the user
    cancelled.  The file system is a map from file names to JSON documents;
    [json.dump] followed by [json.load] gives the document back.  A document
    written by [save_simulation] has the keys and the types that
    [load_simulation] reads: it is a record. *)

Module OrbitalMechanicsGUI.

Record body_data : Type := mk_body_data {
  name : string;
  mass : R;
  position : list R;
  velocity : list R;
  radius : R;
  color : string;
  is_3d : bool
}.

Record simulation_data : Type := mk_data {
  bodies : list body_data;
  time : R;
  dt : R
}.

(** [array.tolist()] *)
Definition tolist (v : np.ndarray) : list R := [np.c0 v; np.c1 v; np.c2 v].

(** the document that [save_simulation] builds *)
Definition simulation_document (simulator : OrbitalSimulator.t) : simulation_data :=
  mk_data
    ((fun body =>
        mk_body_data (CelestialBody.name body) (CelestialBody.mass body)
          (tolist (CelestialBody.position body))
          (tolist (CelestialBody.velocity body))
          (CelestialBody.radius body) (CelestialBody.color body)
          (CelestialBody.is_3d body))
     <$> PhysicsEngine.bodies (OrbitalSimulator.physics_engine simulator))
    (OrbitalSimulator.time simulator) (OrbitalSimulator.dt simulator).

(** [save_simulation]: the file system after the call *)
Definition save_simulation (simulator : option OrbitalSimulator.t)
    (filename : string) (files : gmap string simulation_data)
    : gmap string simulation_data :=
  match simulator with
  | None => files
  | Some simulator =>
      if decide (filename = "") then files
      else <[filename := simulation_document simulator]> files
  end.

(** the loop that recreates the bodies; the first new object has the
    identity [next_id] *)
Fixpoint recreate_bodies (next_id : nat) (l : list body_data)
    : result (list CelestialBody.t) :=
  match l with
  | [] => Ok []
  | body_data :: l' =>
      body ← CelestialBody.__post_init__ next_id (name body_data)
               (mass body_data) (position body_data) (velocity body_data)
               (radius body_data) (color body_data) (is_3d body_data);
      bodies ← recreate_bodies (S next_id) l';
      Ok (body :: bodies)
  end.

(** [load_simulation]: [self.simulator] after the call.  Every exception
    between [open] and the end is caught: the simulator is then the one
    there was. *)
Definition load_simulation (next_id : nat) (filename : string)
    (files : gmap string simulation_data)
    (simulator : option OrbitalSimulator.t) : option OrbitalSimulator.t :=
  if decide (filename = "") then simulator
  else
    match files !! filename with
    | None => simulator
    | Some data =>
        match recreate_bodies next_id (bodies data) with
        | Raise _ => simulator
        | Ok bodies =>
            Some (OrbitalSimulator.set_time (time data)
                    (OrbitalSimulator.__init__ bodies (dt data)))
        end
    end.

End OrbitalMechanicsGUI.

(** ** Closed forms used by the proofs *)

Definition ambiguous_truth_value : exn :=
  ValueError "The truth value of an array with more than one element is ambiguous. Use a.any() or a.all()".

(** [vsum l]: the sum of the arrays of [l]. *)
Definition vsum (l : list np.ndarray) : np.ndarray := foldr np.add np.zeros3 l.

(** [clash body other]: the comparison [other != body] raises. *)
Definition clash (body other : CelestialBody.t) : bool :=
  match CelestialBody.ne other body with Raise _ => true | Ok _ => false end.

(** the term that [other] adds to the net force on [body] *)
Definition pair_force (body other : CelestialBody.t) : np.ndarray :=
  match CelestialBody.ne other body with
  | Ok true => PhysicsEngine.gravitational_force body other
  | _ => np.zeros3
  end.

Definition net_force (l : list CelestialBody.t) (body : CelestialBody.t) : np.ndarray :=
  vsum (pair_force body <$> l).

Definition accel (l : list CelestialBody.t) (body : CelestialBody.t) : np.ndarray :=
  (net_force l body ^/ CelestialBody.mass body)%np.

(** some comparison between two bodies of [l] raises *)
Definition clashing (l : list CelestialBody.t) : bool :=
  existsb (fun body => existsb (clash body) l) l.

(** the body after the first velocity update *)
Definition kick (l : list CelestialBody.t) (dt : R) (b : CelestialBody.t)
    : CelestialBody.t :=
  CelestialBody.set_velocity
    (CelestialBody.velocity b ^+ accel l b ^* dt)%np b.

(** the body after the position update *)
Definition drift (dt : R) (b : CelestialBody.t) : CelestialBody.t :=
  CelestialBody.set_position
    (CelestialBody.position b ^+ CelestialBody.velocity b ^* dt)%np b.

(** the bodies on which the new accelerations are computed *)
Definition predicted (l : list CelestialBody.t) (dt : R) : list CelestialBody.t :=
  (fun b => drift dt (kick l dt b)) <$> l.

(** the body at the end of the step *)
Definition corrected (l : list CelestialBody.t) (dt : R) (b : CelestialBody.t)
    : CelestialBody.t :=
  CelestialBody.set_velocity
    (CelestialBody.velocity b
     ^+ ((accel l b ^+ accel (predicted l dt) (drift dt (kick l dt b))) ^/ 2)
        ^* dt)%np
    (drift dt (kick l dt b)).

(** total linear momentum: the sum of [mass * velocity] over the bodies *)
Definition momentum (l : list CelestialBody.t) : np.ndarray :=
  vsum ((fun b => CelestialBody.mass b *^ CelestialBody.velocity b)%np <$> l).

(** [n] successive calls of [update_positions_velocities(dt)], stopped by
    the first exception *)
Fixpoint update_n (n : nat) (dt : R) (self : PhysicsEngine.t)
    : outcome PhysicsEngine.t :=
  match n with
  | O => Normal self
  | S n' => PhysicsEngine.update_positions_velocities self dt >>> update_n n' dt
  end.

(** [permute sigma l]: the list whose [k]-th element is [l[sigma[k]]] *)
Definition permute {A} (sigma : list nat) (l : list A) : list A :=
  omap (fun i => l !! i) sigma.

Definition outcome_map {S} (f : S -> S) (o : outcome S) : outcome S :=
  match o with
  | Normal s => Normal (f s)
  | Raised e s => Raised e (f s)
  end.

(** what a step must not touch: identity, name, mass and the cosmetic
    fields of a body *)
Definition fixed_fields (b : CelestialBody.t)
    : nat * string * R * R * string * bool :=
  (CelestialBody.oid b, CelestialBody.name b, CelestialBody.mass b,
   CelestialBody.radius b, CelestialBody.color b, CelestialBody.is_3d b).

(** the sum of [mass * position] over the bodies: the total mass times the
    centre of mass *)
Definition mass_moment (l : list CelestialBody.t) : np.ndarray :=
  vsum ((fun b => CelestialBody.mass b *^ CelestialBody.position b)%np <$> l).

(** [shift c b]: the body [b] moved by the vector [c] *)
Definition shift (c : np.ndarray) (b : CelestialBody.t) : CelestialBody.t :=
  CelestialBody.set_position (CelestialBody.position b ^+ c)%np b.

(** [boost u b]: the body [b] with the velocity [u] added to its own *)
Definition boost (u : np.ndarray) (b : CelestialBody.t) : CelestialBody.t :=
  CelestialBody.set_velocity (CelestialBody.velocity b ^+ u)%np b.

(** [galilean c u b]: the body [b] seen from a frame displaced by [c] and
    moving with velocity [u] *)
Definition galilean (c u : np.ndarray) (b : CelestialBody.t) : CelestialBody.t :=
  shift c (boost u b).

(** [planar b]: the body [b] lies and moves in the plane [z = 0] *)
Definition planar (b : CelestialBody.t) : Prop :=
  np.c2 (CelestialBody.position b) = 0 /\ np.c2 (CelestialBody.velocity b) = 0.

(** [rsum l]: the sum of the numbers of [l] *)
Definition rsum (l : list R) : R := foldr Rplus 0 l.

(** kinetic energy of a body, as [get_orbital_energy] computes it *)
Definition kinetic_energy (b : CelestialBody.t) : R :=
  0.5 * CelestialBody.mass b
  * np.dot (CelestialBody.velocity b) (CelestialBody.velocity b).

(** the term that [other] adds to the potential energy of [body] *)
Definition pair_potential (body other : CelestialBody.t) : R :=
  match CelestialBody.ne other body with
  | Ok true =>
      let r := np.norm (CelestialBody.position body
                        ^- CelestialBody.position other)%np in
      if Rgt_dec r 1e6
      then - (G * CelestialBody.mass body * CelestialBody.mass other / r)
      else 0
  | _ => 0
  end.

(** the potential energy of a system, every pair of bodies counted once *)
Fixpoint potential_of_pairs (l : list CelestialBody.t) : R :=
  match l with
  | [] => 0
  | x :: l' => rsum (pair_potential x <$> l') + potential_of_pairs l'
  end.

(** the bodies of [s] bear the names [names], in order, and each name has a
    history of [n] positions *)
Definition histories (names : list string) (n : nat)
    (s : OrbitalSimulator.t) : Prop :=
  CelestialBody.name <$> PhysicsEngine.bodies (OrbitalSimulator.physics_engine s)
  = names /\
  forall k, k ∈ names ->
    exists history,
      OrbitalSimulator.trajectories s !! k = Some history /\
      length history = n.

(** the body that [load_simulation] makes of a saved body: a new object
    with the saved fields, except for the tag [is_3d] *)
Definition reloaded (id : nat) (b : CelestialBody.t) : CelestialBody.t :=
  CelestialBody.mk id (CelestialBody.name b) (CelestialBody.mass b)
    (CelestialBody.position b) (CelestialBody.velocity b)
    (CelestialBody.radius b) (CelestialBody.color b) true.

(** the bodies that [load_simulation] makes of a saved list of bodies: the
    [i]-th one is the [i]-th object created *)
Definition reload_all (next_id : nat) (l : list CelestialBody.t)
    : list CelestialBody.t :=
  imap (fun i => reloaded (next_id + i)) l.

(** an object has one name: two entries of [l] that are the same object
    bear the same name *)
Definition one_name_per_object (l : list CelestialBody.t) : Prop :=
  forall a b, a ∈ l -> b ∈ l ->
    CelestialBody.oid a = CelestialBody.oid b ->
    CelestialBody.name a = CelestialBody.name b.

(** the state of a simulator after [n] steps with time step [dt] on bodies
    named [names]: the names are those of the bodies, in order; every name
    has a history of [n] positions; both clocks show [n * dt] *)
Definition after_steps (names : list string) (dt : R) (n : nat)
    (s : OrbitalSimulator.t) : Prop :=
  CelestialBody.name <$> PhysicsEngine.bodies (OrbitalSimulator.physics_engine s)
  = names /\
  OrbitalSimulator.dt s = dt /\
  OrbitalSimulator.time s = INR n * dt /\
  PhysicsEngine.time (OrbitalSimulator.physics_engine s) = INR n * dt /\
  forall k, k ∈ names ->
    exists history,
      OrbitalSimulator.trajectories s !! k = Some history /\
      length history = n.

(** ** Sample bodies

    The scenario of the specification: a body of the mass of the Sun at the
    origin, and one of the mass of the Earth at 1 AU with velocity
    29780 m/s. *)

Definition sun : CelestialBody.t :=
  CelestialBody.mk 0 "Sun" SUN_MASS (np.array 0 0 0) (np.array 0 0 0)
    20 "yellow" true.

Definition earth : CelestialBody.t :=
  CelestialBody.mk 1 "Earth" EARTH_MASS (np.array 1.496e11 0 0)
    (np.array 0 29780 0) 5 "blue" true.

Definition sun_earth : PhysicsEngine.t := PhysicsEngine.__init__ [sun; earth].

(** a probe without mass, next to the Sun *)
Definition probe : CelestialBody.t :=
  CelestialBody.mk 2 "Probe" 0 (np.array 0 1.496e11 0) (np.array 0 0 0)
    1 "white" true.

Definition sun_probe : PhysicsEngine.t := PhysicsEngine.__init__ [sun; probe].

(** two bodies of 1 kg at a distance of exactly 1e6 m *)
Definition rock_a : CelestialBody.t :=
  CelestialBody.mk 0 "A" 1 (np.array 0 0 0) (np.array 0 0 0) 1 "gray" true.
Definition rock_b : CelestialBody.t :=
  CelestialBody.mk 1 "B" 1 (np.array 1e6 0 0) (np.array 0 0 0) 1 "gray" true.

Definition rocks : PhysicsEngine.t := PhysicsEngine.__init__ [rock_a; rock_b].

(** a second object with the name and the mass of [rock_a] *)
Definition rock_twin : CelestialBody.t :=
  CelestialBody.mk 5 "A" 1 (np.array 0 3e6 0) (np.array 0 0 0) 1 "gray" true.

(** a heavier body that bears the name of [rock_a] *)
Definition rock_heavy : CelestialBody.t :=
  CelestialBody.mk 6 "A" 2 (np.array 0 3e6 0) (np.array 0 0 0) 1 "gray" true.

(** a third body for the Sun and the Earth *)
Definition moon : CelestialBody.t :=
  CelestialBody.mk 3 "Moon" 7.342e22 (np.array 1.49984e11 0 0)
    (np.array 0 30802 0) 2 "gray" true.

(** * Properties *)

(** ** Arrays *)

Section ArrayFacts.
Open Scope np_scope.
Implicit Types u v w : np.ndarray.

Lemma array_eq u v :
  np.c0 u = np.c0 v -> np.c1 u = np.c1 v -> np.c2 u = np.c2 v -> u = v.
Proof. destruct u, v; simpl; intros; subst; reflexivity. Qed.

Lemma add_comm u v : u ^+ v = v ^+ u.
Proof. apply array_eq; simpl; ring. Qed.

Lemma add_assoc u v w : u ^+ (v ^+ w) = u ^+ v ^+ w.
Proof. apply array_eq; simpl; ring. Qed.

Lemma add_zeros_l u : np.zeros3 ^+ u = u.
Proof. apply array_eq; simpl; ring. Qed.

Lemma add_zeros_r u : u ^+ np.zeros3 = u.
Proof. apply array_eq; simpl; ring. Qed.

Lemma smul_muls s v : s *^ v = v ^* s.
Proof. apply array_eq; simpl; ring. Qed.

Lemma muls_add_distr u v s : (u ^+ v) ^* s = u ^* s ^+ v ^* s.
Proof. apply array_eq; simpl; ring. Qed.

Lemma smul_add_distr s u v : s *^ (u ^+ v) = s *^ u ^+ s *^ v.
Proof. apply array_eq; simpl; ring. Qed.

Lemma smul_zeros s : s *^ np.zeros3 = np.zeros3.
Proof. apply array_eq; simpl; ring. Qed.

Lemma smul_div m u : m <> 0 -> m *^ (u ^/ m) = u.
Proof. intros Hm. apply array_eq; simpl; field; exact Hm. Qed.

Lemma sum_squares_nonneg v :
  0 <= np.c0 v * np.c0 v + np.c1 v * np.c1 v + np.c2 v * np.c2 v.
Proof. nra. Qed.

Lemma norm_nonneg v : 0 <= np.norm v.
Proof. apply sqrt_pos. Qed.

Lemma norm_sqr v :
  np.norm v * np.norm v
  = np.c0 v * np.c0 v + np.c1 v * np.c1 v + np.c2 v * np.c2 v.
Proof. apply sqrt_sqrt, sum_squares_nonneg. Qed.

(** [|b - a| = |a - b|] *)
Lemma norm_sub_sym u v : np.norm (u ^- v) = np.norm (v ^- u).
Proof. unfold np.norm. f_equal. simpl. ring. Qed.

Lemma norm_smul s v : np.norm (s *^ v) = Rabs s * np.norm v.
Proof.
  unfold np.norm; simpl.
  rewrite <- sqrt_Rsqr_abs, <- sqrt_mult.
  - f_equal. unfold Rsqr. ring.
  - apply Rle_0_sqr.
  - apply sum_squares_nonneg.
Qed.

Lemma div_smul v s : v ^/ s = (/ s) *^ v.
Proof. apply array_eq; simpl; unfold Rdiv; ring. Qed.

(** [v / |v|] is a unit vector as soon as [|v|] is not zero. *)
Lemma norm_normalized v : np.norm v <> 0 -> np.norm (v ^/ np.norm v) = 1.
Proof.
  intros Hn. rewrite div_smul, norm_smul.
  pose proof (norm_nonneg v) as Hpos.
  rewrite Rabs_inv, (Rabs_pos_eq _ Hpos). field. exact Hn.
Qed.

End ArrayFacts.

(** ** The force model *)

Section ForceModel.
Import CelestialBody PhysicsEngine.
Open Scope np_scope.

Lemma gravitational_force_floor body1 body2 :
  np.norm (position body2 ^- position body1) < 1e6 ->
  gravitational_force body1 body2 = np.zeros3.
Proof.
  intros Hr. unfold gravitational_force.
  destruct (Rlt_dec _ _) as [_|Hn]; [reflexivity | contradiction].
Qed.

Lemma gravitational_force_far body1 body2 :
  ~ np.norm (position body2 ^- position body1) < 1e6 ->
  gravitational_force body1 body2
  = (G * mass body1 * mass body2
     / np.norm (position body2 ^- position body1) ^ 2)
    *^ ((position body2 ^- position body1)
        ^/ np.norm (position body2 ^- position body1)).
Proof.
  intros Hr. unfold gravitational_force.
  destruct (Rlt_dec _ _) as [Hlt|_]; [contradiction | reflexivity].
Qed.

(** Newton's third law: the force on [b] due to [a] is the opposite of the
    force on [a] due to [b]; both sides apply the floor to the same
    distance. *)
Lemma gravitational_force_antisym a b :
  gravitational_force a b ^+ gravitational_force b a = np.zeros3.
Proof.
  unfold gravitational_force.
  rewrite (norm_sub_sym (position a) (position b)).
  destruct (Rlt_dec _ _) as [Hlt|Hge].
  - apply add_zeros_l.
  - set (r := np.norm (position b ^- position a)) in *.
    assert (r <> 0) by lra.
    apply array_eq; simpl; field; assumption.
Qed.

End ForceModel.

Section C2.
Import CelestialBody PhysicsEngine.
Open Scope np_scope.

(** C2.  [gravitational_force A B] is the zero vector when the distance
    [r = |posB - posA|] is below 1e6 m.  Otherwise it is
    [G * mA * mB / r^2] times the vector [u = (posB - posA) / r], which has
    norm 1 and points from A to B; so its norm is [|G * mA * mB / r^2|],
    that is [G * mA * mB / r^2] for masses whose product is not
    negative. *)
Theorem C2_gravitational_force_formula (A B : CelestialBody.t) :
  let r_vec := position B ^- position A in
  let r := np.norm r_vec in
  (r < 1e6 -> gravitational_force A B = np.zeros3) /\
  (~ r < 1e6 ->
     let u := r_vec ^/ r in
     gravitational_force A B = (G * mass A * mass B / r ^ 2) *^ u /\
     np.norm u = 1 /\
     np.norm (gravitational_force A B) = Rabs (G * mass A * mass B / r ^ 2) /\
     (0 <= mass A * mass B ->
      np.norm (gravitational_force A B) = G * mass A * mass B / r ^ 2)).
Proof.
  intros r_vec r. split.
  - apply gravitational_force_floor.
  - intros Hr u.
    assert (Hr0 : r <> 0) by lra.
    assert (Hu : np.norm u = 1) by (apply norm_normalized; exact Hr0).
    assert (HF : gravitational_force A B = (G * mass A * mass B / r ^ 2) *^ u)
      by (apply gravitational_force_far; exact Hr).
    assert (HN : np.norm (gravitational_force A B)
                 = Rabs (G * mass A * mass B / r ^ 2))
      by (rewrite HF, norm_smul, Hu; ring).
    repeat split; try assumption.
    intros Hm. rewrite HN. apply Rabs_pos_eq.
    apply Rmult_le_pos.
    + assert (0 < G) by (unfold G; lra). nra.
    + left. apply Rinv_0_lt_compat. apply pow_lt.
      pose proof (norm_nonneg r_vec). fold r in H. lra.
Qed.

End C2.

(** ** Net force and acceleration as sums

    The loops of [calculate_forces] and [acceleration] in closed form: the
    exception they can raise, and the sum they return otherwise. *)

Section Sums.
Open Scope np_scope.

Lemma vsum_cons u l : vsum (u :: l) = u ^+ vsum l.
Proof. reflexivity. Qed.

Lemma vsum_map_add {A} (g h : A -> np.ndarray) (l : list A) :
  vsum ((fun a => g a ^+ h a) <$> l) = vsum (g <$> l) ^+ vsum (h <$> l).
Proof.
  induction l as [|a l IH].
  - symmetry. apply add_zeros_l.
  - rewrite !fmap_cons, !vsum_cons, IH. apply array_eq; simpl; ring.
Qed.

Lemma vsum_map_zeros {A} (g : A -> np.ndarray) (l : list A) :
  (forall a, g a = np.zeros3) -> vsum (g <$> l) = np.zeros3.
Proof.
  intros Hg. induction l as [|a l IH]; [reflexivity|].
  rewrite fmap_cons, vsum_cons, Hg, IH. apply add_zeros_l.
Qed.

Lemma vsum_map_smul {A} (s : R) (g : A -> np.ndarray) (l : list A) :
  vsum ((fun a => s *^ g a) <$> l) = s *^ vsum (g <$> l).
Proof.
  induction l as [|a l IH].
  - symmetry. apply smul_zeros.
  - rewrite !fmap_cons, !vsum_cons, IH. symmetry. apply smul_add_distr.
Qed.

Lemma vsum_Permutation l l' : l ≡ₚ l' -> vsum l = vsum l'.
Proof.
  induction 1 as [|u l l' _ IH|u v l|l l' l'' _ IH1 _ IH2].
  - reflexivity.
  - now rewrite !vsum_cons, IH.
  - rewrite !vsum_cons, !add_assoc. f_equal. apply add_comm.
  - now rewrite IH1.
Qed.

(** A double sum of an antisymmetric term vanishes. *)
Lemma vsum_antisym {A} (f : A -> A -> np.ndarray) (l : list A) :
  (forall a b, f a b ^+ f b a = np.zeros3) ->
  vsum ((fun a => vsum (f a <$> l)) <$> l) = np.zeros3.
Proof.
  intros Hf.
  assert (Hdiag : forall a, f a a = np.zeros3).
  { intros a. specialize (Hf a a).
    apply array_eq; simpl;
      [apply (f_equal np.c0) in Hf | apply (f_equal np.c1) in Hf
      | apply (f_equal np.c2) in Hf]; simpl in Hf; lra. }
  induction l as [|x l IH]; [reflexivity|].
  rewrite fmap_cons, vsum_cons, fmap_cons, vsum_cons.
  rewrite (list_fmap_ext (fun a => vsum (f a <$> x :: l))
             (fun a => f a x ^+ vsum (f a <$> l)) l)
    by (intros; apply vsum_cons).
  rewrite (vsum_map_add (fun a => f a x) (fun a => vsum (f a <$> l))).
  rewrite IH, Hdiag, add_zeros_l, add_zeros_r.
  rewrite <- vsum_map_add. apply vsum_map_zeros. intros a. apply Hf.
Qed.

End Sums.

Section Comparison.
Import CelestialBody.

Lemma ne_sym a b : ne a b = ne b a.
Proof.
  unfold ne.
  destruct (decide (oid a = oid b)) as [E|E],
           (decide (oid b = oid a)) as [E'|E']; try congruence.
  rewrite (String.eqb_sym (name a) (name b)).
  destruct (negb _); [reflexivity|].
  destruct (Req_dec_T (mass a) (mass b)), (Req_dec_T (mass b) (mass a));
    congruence.
Qed.

(** The only exception of [!=]. *)
Lemma ne_raise a b e : ne a b = Raise e -> e = ambiguous_truth_value.
Proof.
  unfold ne. destruct (decide _); [discriminate|].
  destruct (negb _); [discriminate|].
  destruct (Req_dec_T _ _); [|discriminate].
  intros [= <-]. reflexivity.
Qed.

(** [!=] looks at the identity, the name and the mass only. *)
Lemma ne_ext a a' b b' :
  oid a = oid a' -> name a = name a' -> mass a = mass a' ->
  oid b = oid b' -> name b = name b' -> mass b = mass b' ->
  ne a b = ne a' b'.
Proof. unfold ne. intros -> -> -> -> -> ->. reflexivity. Qed.

Lemma ne_same_object a b : oid a = oid b -> ne a b = Ok false.
Proof. unfold ne. intros E. destruct (decide _); [reflexivity | contradiction]. Qed.

Lemma ne_names a b : name a <> name b -> exists c, ne a b = Ok c.
Proof.
  unfold ne. intros E. destruct (decide _); [eauto|].
  destruct (String.eqb_spec (name a) (name b)); [contradiction|].
  simpl. eauto.
Qed.

Lemma clash_sym a b : clash a b = clash b a.
Proof. unfold clash. now rewrite ne_sym. Qed.

Lemma pair_force_antisym a b :
  (pair_force a b ^+ pair_force b a)%np = np.zeros3.
Proof.
  unfold pair_force. rewrite (ne_sym b a).
  destruct (ne a b) as [[|]|]; try apply add_zeros_l.
  apply gravitational_force_antisym.
Qed.

End Comparison.

(** ** The loops in closed form *)

Section Loops.

Lemma getitem_fmap {A B} (f : A -> B) (l : list A) (k : nat) (a : A) :
  l !! k = Some a -> getitem (f <$> l) k = Ok (f a).
Proof. intros H. unfold getitem. now rewrite list_lookup_fmap, H. Qed.

(** A loop over [m <$> l] whose body succeeds on every element. *)
Lemma for_enumerate_fmap {A B} (body : nat -> B -> result B) (m g : A -> B)
    (i : nat) (l : list A) :
  (forall k a, l !! k = Some a -> body (i + k)%nat (m a) = Ok (g a)) ->
  for_enumerate body i (m <$> l) = Normal (g <$> l).
Proof.
  revert i. induction l as [|x l IH]; intros i Hbody; [reflexivity|].
  rewrite !fmap_cons. cbn [for_enumerate].
  pose proof (Hbody 0%nat x eq_refl) as H0.
  rewrite Nat.add_0_r in H0. rewrite H0, IH; [reflexivity|].
  intros k a Hk. rewrite <- (Hbody (S k) a Hk). f_equal. lia.
Qed.

Lemma for_enumerate_map {A} (body : nat -> A -> result A) (g : A -> A)
    (i : nat) (l : list A) :
  (forall k a, l !! k = Some a -> body (i + k)%nat a = Ok (g a)) ->
  for_enumerate body i l = Normal (g <$> l).
Proof.
  intros H. rewrite <- (list_fmap_id l) at 1.
  now apply for_enumerate_fmap.
Qed.

Lemma existsb_fmap {A B} (p : B -> bool) (f : A -> B) (l : list A) :
  existsb p (f <$> l) = existsb (fun a => p (f a)) l.
Proof.
  induction l as [|x l IH]; [reflexivity|].
  rewrite fmap_cons. cbn [existsb]. now rewrite IH.
Qed.

Lemma existsb_ext' {A} (p q : A -> bool) (l : list A) :
  (forall a, p a = q a) -> existsb p l = existsb q l.
Proof.
  intros E. induction l as [|x l IH]; [reflexivity|].
  cbn [existsb]. now rewrite E, IH.
Qed.

Lemma existsb_Permutation {A} (p : A -> bool) (l l' : list A) :
  l ≡ₚ l' -> existsb p l = existsb p l'.
Proof.
  induction 1 as [|x l l' _ IH|x y l|l l' l'' _ IH1 _ IH2]; cbn [existsb].
  - reflexivity.
  - now rewrite IH.
  - destruct (p x), (p y); reflexivity.
  - now rewrite IH1.
Qed.

Lemma existsb_false {A} (p : A -> bool) (l : list A) :
  (forall a, a ∈ l -> p a = false) -> existsb p l = false.
Proof.
  induction l as [|x l IH]; intros H; [reflexivity|].
  cbn [existsb]. rewrite H by left. rewrite IH; [reflexivity|].
  intros a Ha. apply H. now right.
Qed.

End Loops.

(** ** The force and acceleration loops *)

Section Engine.
Import CelestialBody PhysicsEngine.
Open Scope np_scope.

Lemma calculate_forces_spec self body :
  calculate_forces self body
  = if existsb (clash body) (bodies self) then Raise ambiguous_truth_value
    else Ok (net_force (bodies self) body).
Proof.
  unfold calculate_forces.
  rewrite <- (add_zeros_l (net_force (bodies self) body)).
  generalize np.zeros3 as acc. generalize (bodies self) as l.
  induction l as [|x l IH]; intros acc.
  - cbn. now rewrite add_zeros_r.
  - cbn [for_each existsb]. unfold net_force.
    rewrite fmap_cons, vsum_cons. unfold clash at 1, pair_force at 1.
    destruct (ne x body) as [[|]|e] eqn:Hne; cbn.
    + rewrite IH. destruct (existsb _ _); [reflexivity|].
      unfold net_force. now rewrite add_assoc.
    + rewrite IH. destruct (existsb _ _); [reflexivity|].
      unfold net_force. now rewrite add_zeros_l.
    + now rewrite (ne_raise _ _ _ Hne).
Qed.

Lemma acceleration_spec self body :
  acceleration self body
  = if existsb (clash body) (bodies self) then Raise ambiguous_truth_value
    else Ok (accel (bodies self) body).
Proof.
  unfold acceleration. rewrite calculate_forces_spec.
  destruct (existsb _ _); reflexivity.
Qed.

Lemma mapM_acceleration self (l : list CelestialBody.t) :
  mapM (acceleration self) l
  = if existsb (fun body => existsb (clash body) (bodies self)) l
    then Raise ambiguous_truth_value
    else Ok (accel (bodies self) <$> l).
Proof.
  induction l as [|x l IH]; [reflexivity|].
  change (mapM (acceleration self) (x :: l))
    with (y ← acceleration self x;
          k ← mapM (acceleration self) l; mret (y :: k)).
  rewrite acceleration_spec, IH. cbn [existsb].
  destruct (existsb (clash x) _); [reflexivity|].
  destruct (existsb _ l); reflexivity.
Qed.

(** The net force does not depend on the order of the bodies. *)
Lemma net_force_Permutation l l' body :
  l ≡ₚ l' -> net_force l body = net_force l' body.
Proof. intros H. unfold net_force. apply vsum_Permutation. now rewrite H. Qed.

Lemma accel_Permutation l l' body : l ≡ₚ l' -> accel l body = accel l' body.
Proof. intros H. unfold accel. now rewrite (net_force_Permutation l l'). Qed.

Lemma clashing_Permutation l l' : l ≡ₚ l' -> clashing l = clashing l'.
Proof.
  intros H. unfold clashing.
  rewrite (existsb_Permutation _ l l' H).
  apply existsb_ext'. intros a. now apply existsb_Permutation.
Qed.

(** Comparisons look at identity, name and mass: an update of positions
    and velocities changes no comparison. *)
Lemma clashing_fmap (f : CelestialBody.t -> CelestialBody.t) l :
  (forall b, oid (f b) = oid b /\ name (f b) = name b /\ mass (f b) = mass b) ->
  clashing (f <$> l) = clashing l.
Proof.
  intros Hf. unfold clashing. rewrite existsb_fmap.
  apply existsb_ext'. intros a. rewrite existsb_fmap.
  apply existsb_ext'. intros b. unfold clash.
  destruct (Hf a) as (? & ? & ?), (Hf b) as (? & ? & ?).
  now rewrite (ne_ext (f b) b (f a) a).
Qed.

(** Distinct names: no comparison raises. *)
Lemma NoDup_names_clashing l : NoDup (name <$> l) -> clashing l = false.
Proof.
  intros Hnd. unfold clashing.
  apply existsb_false. intros a Ha. apply existsb_false. intros b Hb.
  unfold clash.
  destruct (decide (name b = name a)) as [E|E].
  - apply list_elem_of_lookup in Ha as [i Hi], Hb as [j Hj].
    assert (i = j) as ->.
    { apply (NoDup_lookup (name <$> l) i j (name a) Hnd);
        rewrite list_lookup_fmap; [rewrite Hi | rewrite Hj]; cbn; congruence. }
    assert (a = b) as -> by congruence.
    now rewrite ne_same_object.
  - destruct (ne_names b a E) as [c ->]. reflexivity.
Qed.

End Engine.

(** ** One step of the integrator, body by body *)

Section Step.
Import CelestialBody PhysicsEngine.
Open Scope np_scope.

Lemma clashing_predicted l dt : clashing (predicted l dt) = clashing l.
Proof. apply clashing_fmap. intros b. repeat split. Qed.

Lemma update_positions_velocities_spec self dt :
  update_positions_velocities self dt
  = if clashing (bodies self) then Raised ambiguous_truth_value self
    else Normal (mk (corrected (bodies self) dt <$> bodies self)
                    (time self + dt)).
Proof.
  destruct self as [l t]. unfold update_positions_velocities, try.
  cbn [bodies time]. rewrite mapM_acceleration. cbn [bodies].
  fold (clashing l). destruct (clashing l) eqn:Hc; [reflexivity|].
  unfold update_bodies at 1. cbn [bodies].
  rewrite (for_enumerate_map _ (kick l dt)).
  2:{ intros k a Hk. cbn. rewrite (getitem_fmap _ _ _ _ Hk). reflexivity. }
  cbn [and_then set_bodies time].
  unfold update_bodies at 1, set_bodies. cbn [bodies time].
  rewrite (for_enumerate_fmap _ (kick l dt) (fun b => drift dt (kick l dt b)))
    by reflexivity.
  fold (predicted l dt). cbn [and_then time bodies].
  rewrite mapM_acceleration. cbn [bodies].
  fold (clashing (predicted l dt)). rewrite clashing_predicted, Hc.
  unfold update_bodies, set_bodies. cbn [bodies time].
  unfold predicted at 3.
  rewrite (for_enumerate_fmap _ _ (corrected l dt)).
  2:{ intros k a Hk. cbn [Nat.add].
      rewrite (getitem_fmap _ _ _ _ Hk). cbn [mbind result_bind].
      unfold predicted at 2. rewrite <- list_fmap_compose.
      rewrite (getitem_fmap _ _ _ _ Hk). cbn [mbind result_bind].
      rewrite (getitem_fmap _ _ _ _ Hk). reflexivity. }
  reflexivity.
Qed.

End Step.

(** ** C1: the predictor-corrector sequence *)

Section C1.
Import CelestialBody PhysicsEngine.
Open Scope np_scope.

Lemma half_sum_div2 (a b : np.ndarray) (dt : R) :
  ((a ^+ b) ^/ 2) ^* dt = 0.5 *^ (a ^+ b) ^* dt.
Proof. apply array_eq; simpl; lra. Qed.

(** C1.  One call of [update_positions_velocities] does this, on any list
    of pairwise distinct bodies (no object is listed twice).  The
    accelerations [a0] of all bodies are computed from the state before the
    step; if that raises, the call raises the same exception and has changed
    nothing (it does not raise when the names of the bodies are pairwise
    distinct, as the data model requires).  Otherwise the call returns
    normally.  The accelerations [a1] are those of the list [mid] in the
    engine that holds [mid]: [mid] has one body for each body of the engine,
    in the same order, and nothing more; its [i]-th body is the [i]-th body
    with velocity [v + a0[i] * dt] and position [p + (v + a0[i] * dt) * dt],
    where [p] and [v] are the position and the velocity before the step.  At
    the end body [i] has that position and the velocity
    [v + 0.5 * (a0[i] + a1[i]) * dt], and nothing else of it has changed.
    The time of the engine advances by [dt]. *)
Theorem C1_predictor_corrector_sequence (self : PhysicsEngine.t) (dt : R) :
  NoDup (oid <$> bodies self) ->
  (NoDup (name <$> bodies self) ->
   exists a0, mapM (acceleration self) (bodies self) = Ok a0) /\
  (forall e,
     mapM (acceleration self) (bodies self) = Raise e ->
     update_positions_velocities self dt = Raised e self) /\
  (forall a0,
     mapM (acceleration self) (bodies self) = Ok a0 ->
     exists mid a1 self',
       length mid = length (bodies self) /\
       mapM (acceleration (set_bodies mid self)) mid = Ok a1 /\
       length a1 = length (bodies self) /\
       update_positions_velocities self dt = Normal self' /\
       time self' = time self + dt /\
       length (bodies self') = length (bodies self) /\
       forall i b, bodies self !! i = Some b ->
         exists a0_i a1_i,
           a0 !! i = Some a0_i /\
           a1 !! i = Some a1_i /\
           mid !! i
           = Some (set_position
                     (position b ^+ (velocity b ^+ a0_i ^* dt) ^* dt)
                     (set_velocity (velocity b ^+ a0_i ^* dt) b)) /\
           bodies self' !! i
           = Some (set_velocity
                     (velocity b ^+ 0.5 *^ (a0_i ^+ a1_i) ^* dt)
                     (set_position
                        (position b ^+ (velocity b ^+ a0_i ^* dt) ^* dt) b))).
Proof.
  intros _. set (l := bodies self).
  rewrite update_positions_velocities_spec, mapM_acceleration.
  fold l. fold (clashing l). split; [|split].
  - intros Hnd. rewrite (NoDup_names_clashing _ Hnd). eauto.
  - intros e He. destruct (clashing l); congruence.
  - intros a0 Ha0. destruct (clashing l) eqn:Hc; [discriminate|].
    injection Ha0 as <-.
    exists (predicted l dt), (accel (predicted l dt) <$> predicted l dt),
           (mk (corrected l dt <$> l) (time self + dt)).
    rewrite mapM_acceleration. cbn [bodies set_bodies time].
    fold (clashing (predicted l dt)). rewrite clashing_predicted, Hc.
    repeat split.
    + unfold predicted. apply length_fmap.
    + unfold predicted. now rewrite !length_fmap.
    + apply length_fmap.
    + intros i b Hb.
      exists (accel l b), (accel (predicted l dt) (drift dt (kick l dt b))).
      assert (Hmid : predicted l dt !! i = Some (drift dt (kick l dt b)))
        by (unfold predicted; now rewrite list_lookup_fmap, Hb).
      repeat split.
      * now rewrite list_lookup_fmap, Hb.
      * now rewrite list_lookup_fmap, Hmid.
      * exact Hmid.
      * rewrite list_lookup_fmap, Hb. cbn [fmap option_fmap option_map].
        unfold corrected. rewrite half_sum_div2. reflexivity.
Qed.

Lemma C1_witness :
  exists self',
    update_positions_velocities sun_earth 3600 = Normal self' /\
    time self' = 0 + 3600.
Proof.
  destruct (C1_predictor_corrector_sequence sun_earth 3600)
    as (Hok & _ & Hseq).
  { apply (bool_decide_unpack _). vm_compute. reflexivity. }
  destruct Hok as (a0 & Ha0).
  { apply (bool_decide_unpack _). vm_compute. reflexivity. }
  destruct (Hseq a0 Ha0)
    as (mid & a1 & self' & _ & _ & _ & Hstep & Htime & _).
  exists self'. split; [exact Hstep | exact Htime].
Defined.

End C1.

(** ** C6: linear momentum *)

Section C6.
Import CelestialBody PhysicsEngine.
Open Scope np_scope.

(** The net forces of a body set add up to zero. *)
Lemma net_forces_cancel l : vsum (net_force l <$> l) = np.zeros3.
Proof. apply (vsum_antisym pair_force), pair_force_antisym. Qed.

Lemma net_forces_cancel_predicted l dt :
  vsum ((fun b => net_force (predicted l dt) (drift dt (kick l dt b))) <$> l)
  = np.zeros3.
Proof.
  rewrite <- (net_forces_cancel (predicted l dt)).
  unfold predicted at 3. now rewrite <- list_fmap_compose.
Qed.

(** The closed form of the step keeps the momentum, whatever [dt]. *)
Lemma momentum_corrected l dt :
  (forall b, b ∈ l -> mass b <> 0) ->
  momentum (corrected l dt <$> l) = momentum l.
Proof.
  intros Hm. unfold momentum. rewrite <- list_fmap_compose.
  rewrite (list_fmap_ext _
             (fun b => mass b *^ velocity b
                       ^+ (dt / 2) *^ (net_force l b
                          ^+ net_force (predicted l dt) (drift dt (kick l dt b))))).
  - rewrite vsum_map_add, vsum_map_smul, vsum_map_add.
    rewrite net_forces_cancel, net_forces_cancel_predicted.
    rewrite add_zeros_l, smul_zeros. apply add_zeros_r.
  - intros i b Hb. cbn.
    assert (mass b <> 0) by (eapply Hm, list_elem_of_lookup_2, Hb).
    apply array_eq; simpl; field; assumption.
Qed.

Lemma names_corrected l dt : name <$> (corrected l dt <$> l) = name <$> l.
Proof. rewrite <- list_fmap_compose. reflexivity. Qed.

Lemma masses_corrected l dt (P : R -> Prop) :
  (forall b, b ∈ l -> P (mass b)) ->
  forall b, b ∈ corrected l dt <$> l -> P (mass b).
Proof.
  intros H b Hb. apply list_elem_of_fmap in Hb as (b0 & -> & Hb0).
  apply (H b0 Hb0).
Qed.

(** C6.  For a body set with positive masses and pairwise distinct names,
    and every [dt], a call of [update_positions_velocities] returns
    normally and leaves the total linear momentum, the sum of
    [mass * velocity] over the bodies, as it was; so do [n] successive
    calls, for every [n]. *)
Theorem C6_momentum_conserved (self : PhysicsEngine.t) (dt : R) :
  NoDup (name <$> bodies self) ->
  (forall b, b ∈ bodies self -> 0 < mass b) ->
  (exists self',
     update_positions_velocities self dt = Normal self' /\
     momentum (bodies self') = momentum (bodies self)) /\
  (forall n, exists self',
     update_n n dt self = Normal self' /\
     momentum (bodies self') = momentum (bodies self)).
Proof.
  intros Hnd Hm.
  assert (Hone : forall s,
            NoDup (name <$> bodies s) ->
            (forall b, b ∈ bodies s -> 0 < mass b) ->
            update_positions_velocities s dt
            = Normal (mk (corrected (bodies s) dt <$> bodies s) (time s + dt))).
  { intros s Hs _. rewrite update_positions_velocities_spec.
    now rewrite (NoDup_names_clashing _ Hs). }
  assert (Hkeep : forall s,
            (forall b, b ∈ bodies s -> 0 < mass b) ->
            momentum (corrected (bodies s) dt <$> bodies s)
            = momentum (bodies s)).
  { intros s Hs. apply momentum_corrected. intros b Hb.
    specialize (Hs b Hb). lra. }
  split.
  - eexists. split; [apply Hone; assumption|]. cbn [bodies]. now apply Hkeep.
  - intros n. revert self Hnd Hm.
    induction n as [|n IH]; intros self Hnd Hm.
    + exists self. split; reflexivity.
    + cbn [update_n]. rewrite (Hone self Hnd Hm). cbn [and_then].
      destruct (IH (mk (corrected (bodies self) dt <$> bodies self)
                       (time self + dt))) as (s' & Hs' & Hmom).
      * cbn [bodies]. now rewrite names_corrected.
      * cbn [bodies]. apply (masses_corrected _ _ (fun m => 0 < m)), Hm.
      * exists s'. split; [exact Hs'|].
        rewrite Hmom. cbn [bodies]. now apply Hkeep.
Qed.

Lemma C6_witness :
  exists self',
    update_n 24 3600 sun_earth = Normal self' /\
    momentum (bodies self') = momentum (bodies sun_earth).
Proof.
  apply (C6_momentum_conserved sun_earth 3600).
  - apply (bool_decide_unpack _). vm_compute. reflexivity.
  - intros b Hb. cbn in Hb.
    apply elem_of_cons in Hb as [->|Hb];
      [|apply elem_of_cons in Hb as [->|Hb]; [|inversion Hb]];
      cbn; unfold SUN_MASS, EARTH_MASS; lra.
Defined.

End C6.

(** ** C7: the order of the bodies *)

Section C7.
Import CelestialBody PhysicsEngine.
Open Scope np_scope.

Lemma omap_lookup_seq {A} (pre l : list A) :
  omap (fun i => (pre ++ l) !! i) (seq (length pre) (length l)) = l.
Proof.
  revert pre. induction l as [|x l IH]; intros pre; [reflexivity|].
  cbn [length seq omap list_omap]. rewrite list_lookup_middle by reflexivity.
  f_equal. specialize (IH (pre ++ [x])).
  rewrite <- app_assoc, length_app in IH. cbn in IH.
  rewrite Nat.add_1_r in IH. exact IH.
Qed.

(** A permutation of the indices gives a permutation of the list. *)
Lemma permute_Permutation {A} (sigma : list nat) (l : list A) :
  sigma ≡ₚ seq 0 (length l) -> permute sigma l ≡ₚ l.
Proof.
  intros H. unfold permute. rewrite H.
  pose proof (omap_lookup_seq [] l) as E. cbn [app length] in E.
  now rewrite E.
Qed.

Lemma permute_fmap {A B} (f : A -> B) (sigma : list nat) (l : list A) :
  permute sigma (f <$> l) = f <$> permute sigma l.
Proof.
  unfold permute. induction sigma as [|i sigma IH]; [reflexivity|].
  cbn [omap list_omap]. rewrite list_lookup_fmap.
  destruct (l !! i); cbn; now rewrite IH.
Qed.

Lemma kick_Permutation l l' dt b : l ≡ₚ l' -> kick l dt b = kick l' dt b.
Proof. intros H. unfold kick. now rewrite (accel_Permutation l l'). Qed.

Lemma predicted_Permutation l l' dt :
  l ≡ₚ l' -> predicted l dt ≡ₚ predicted l' dt.
Proof.
  intros H. unfold predicted.
  rewrite (list_fmap_ext (fun b => drift dt (kick l' dt b))
             (fun b => drift dt (kick l dt b)) l')
    by (intros; now rewrite (kick_Permutation l l')).
  now rewrite H.
Qed.

(** What the step makes of a body does not depend on the order in which
    the bodies are listed. *)
Lemma corrected_Permutation l l' dt b :
  l ≡ₚ l' -> corrected l dt b = corrected l' dt b.
Proof.
  intros H. unfold corrected.
  rewrite (kick_Permutation l l' dt b H), (accel_Permutation l l' b H).
  now rewrite (accel_Permutation _ _ _ (predicted_Permutation l l' dt H)).
Qed.

(** C7.  The step commutes with every permutation of the body collection:
    for every engine state, every [dt] and every permutation [sigma] of the
    indices, a step on the permuted collection ends in the state (and with
    the exception, if any) that the step on the original collection ends
    in, permuted by [sigma]. *)
Theorem C7_step_commutes_with_permutation (self : PhysicsEngine.t) (dt : R)
    (sigma : list nat) :
  sigma ≡ₚ seq 0 (length (bodies self)) ->
  update_positions_velocities (set_bodies (permute sigma (bodies self)) self) dt
  = outcome_map (fun s => set_bodies (permute sigma (bodies s)) s)
      (update_positions_velocities self dt).
Proof.
  intros Hsigma. destruct self as [l t]. cbn [bodies] in *.
  pose proof (permute_Permutation sigma l Hsigma) as Hperm.
  rewrite !update_positions_velocities_spec.
  unfold set_bodies. cbn [bodies time].
  rewrite (clashing_Permutation _ _ Hperm).
  destruct (clashing l); cbn [outcome_map bodies time]; [reflexivity|].
  do 2 f_equal. rewrite permute_fmap.
  apply list_fmap_ext. intros i b _. now apply corrected_Permutation.
Qed.

Lemma C7_witness :
  update_positions_velocities
    (set_bodies (permute [1; 0]%nat (bodies sun_earth)) sun_earth) 3600
  = outcome_map (fun s => set_bodies (permute [1; 0]%nat (bodies s)) s)
      (update_positions_velocities sun_earth 3600).
Proof.
  apply (C7_step_commutes_with_permutation sun_earth 3600 [1; 0]%nat).
  cbn. apply perm_swap.
Defined.

End C7.

(** ** C8: a body of mass zero *)

Section C8.
Import CelestialBody PhysicsEngine.
Open Scope np_scope.

(** C8, as stated, fails: with a body of mass zero among the bodies the
    step does not raise. *)
Lemma C8_counterexample :
  probe ∈ bodies sun_probe /\ mass probe = 0 /\
  ~ (exists e s, update_positions_velocities sun_probe 3600 = Raised e s).
Proof.
  split; [|split].
  - cbn. right. left.
  - reflexivity.
  - intros (e & s & H). rewrite update_positions_velocities_spec in H.
    rewrite NoDup_names_clashing in H; [discriminate|].
    apply (bool_decide_unpack _). vm_compute. reflexivity.
Qed.

(** C8, amended.  The step checks no mass.  With a body of mass zero among
    bodies of pairwise distinct names, no acceleration computation raises:
    the acceleration of every body is its net force divided by its mass
    with numpy's division, which does not raise; the step returns normally,
    all bodies updated and the time advanced by [dt]. *)
Theorem C8_zero_mass_does_not_abort (self : PhysicsEngine.t) (dt : R) :
  NoDup (name <$> bodies self) ->
  (exists b, b ∈ bodies self /\ mass b = 0) ->
  (forall b, b ∈ bodies self ->
     exists force, calculate_forces self b = Ok force /\
                   acceleration self b = Ok (force ^/ mass b)) /\
  exists self',
    update_positions_velocities self dt = Normal self' /\
    time self' = time self + dt /\
    length (bodies self') = length (bodies self).
Proof.
  intros Hnd _. pose proof (NoDup_names_clashing _ Hnd) as Hc. split.
  - intros b Hb. exists (net_force (bodies self) b).
    rewrite acceleration_spec, calculate_forces_spec.
    unfold clashing in Hc.
    assert (existsb (clash b) (bodies self) = false) as ->; [|now split].
    destruct (existsb (clash b) (bodies self)) eqn:E; [|reflexivity].
    rewrite <- Hc. symmetry. apply existsb_exists.
    exists b. split; [now apply list_elem_of_In | exact E].
  - eexists. rewrite update_positions_velocities_spec, Hc.
    split; [reflexivity|]. cbn [time bodies]. split; [reflexivity|].
    apply length_fmap.
Qed.

Lemma C8_witness :
  exists self', update_positions_velocities sun_probe 3600 = Normal self'.
Proof.
  destruct (C8_zero_mass_does_not_abort sun_probe 3600)
    as (_ & self' & Hstep & _).
  - apply (bool_decide_unpack _). vm_compute. reflexivity.
  - exists probe. split; [cbn; right; left | reflexivity].
  - exists self'. exact Hstep.
Defined.

End C8.

(** ** C4 and C9: the constructor *)

Section Constructor.
Import CelestialBody.

(** C4, as stated, fails: a body of mass zero, and one of negative mass, are
    constructed without error. *)
Lemma C4_counterexample :
  ~ (exists e, __post_init__ 7 "Probe" 0 [0; 1.496e11] [0; 0] 1 "white" true
               = Raise e) /\
  ~ (exists e, __post_init__ 7 "Probe" (-5) [0; 1.496e11] [0; 0] 1 "white" true
               = Raise e).
Proof. split; intros (e & H); discriminate H. Qed.

(** C4, amended.  The constructor does not look at the mass: whenever
    position and velocity have length 2 or 3, construction succeeds for
    every mass, non-positive ones included, and the body holds the mass it
    was given. *)
Theorem C4_mass_is_not_validated (id : nat) (name : string) (mass : R)
    (position velocity : list R) (radius : R) (color : string) (is_3d : bool) :
  length position = 2%nat \/ length position = 3%nat ->
  length velocity = 2%nat \/ length velocity = 3%nat ->
  exists b,
    __post_init__ id name mass position velocity radius color is_3d = Ok b /\
    CelestialBody.mass b = mass.
Proof.
  intros Hp Hv.
  destruct position as [|x [|y [|z [|? ?]]]]; cbn in Hp; try lia;
    destruct velocity as [|vx [|vy [|vz [|? ?]]]]; cbn in Hv; try lia;
    eexists; split; reflexivity.
Qed.

Lemma C4_witness :
  exists b,
    __post_init__ 7 "Probe" (-5) [0; 1.496e11] [0; 0; 0] 1 "white" true = Ok b /\
    mass b = -5.
Proof.
  apply (C4_mass_is_not_validated 7 "Probe" (-5) [0; 1.496e11] [0; 0; 0]);
    [left | right]; reflexivity.
Defined.

(** C9, as stated, fails: a 2-component velocity with a 3-component
    position is zero-extended, but the body is not tagged as planar. *)
Lemma C9_counterexample :
  ~ (exists b,
       __post_init__ 7 "Probe" 1 [1; 2; 3] [4; 5] 1 "white" true = Ok b /\
       is_3d b = false).
Proof. intros (b & H & Hflag). injection H as <-. discriminate Hflag. Qed.

(** C9, amended.  Construction succeeds exactly when position and velocity
    both have length 2 or 3.  Then each of them is stored with three
    components, a 2-component input being extended by 0.0, and the body is
    tagged as planar ([is_3d = false]) exactly when the position input has
    2 components; the length of the velocity has no part in the tag. *)
Theorem C9_dimensions (id : nat) (name : string) (mass : R)
    (position velocity : list R) (radius : R) (color : string) (is_3d : bool) :
  match __post_init__ id name mass position velocity radius color is_3d with
  | Ok b =>
      (length position = 2%nat \/ length position = 3%nat) /\
      (length velocity = 2%nat \/ length velocity = 3%nat) /\
      CelestialBody.position b
      = np.array (nth 0 position 0) (nth 1 position 0) (nth 2 position 0) /\
      CelestialBody.velocity b
      = np.array (nth 0 velocity 0) (nth 1 velocity 0) (nth 2 velocity 0) /\
      CelestialBody.is_3d b = bool_decide (length position = 3%nat)
  | Raise e =>
      ~ ((length position = 2%nat \/ length position = 3%nat) /\
         (length velocity = 2%nat \/ length velocity = 3%nat))
  end.
Proof.
  destruct position as [|x [|y [|z [|? ?]]]];
    destruct velocity as [|vx [|vy [|vz [|? ?]]]]; cbn;
    try (intros [[H|H] [H'|H']]; cbn in *; lia);
    repeat split; auto.
Qed.

End Constructor.

(** ** C5 and C2 at concrete distances *)

Section Floor.
Import CelestialBody PhysicsEngine.
Open Scope np_scope.

Lemma norm_on_axis (x : R) : np.norm (np.array x 0 0) = Rabs x.
Proof.
  unfold np.norm. cbn [np.c0 np.c1 np.c2].
  replace (x * x + 0 * 0 + 0 * 0) with (Rsqr x) by (unfold Rsqr; ring).
  apply sqrt_Rsqr_abs.
Qed.

Lemma distance_rocks : np.norm (position rock_b ^- position rock_a) = 1e6.
Proof.
  unfold rock_a, rock_b, np.sub. cbn [position np.c0 np.c1 np.c2].
  replace (1e6 - 0) with 1e6 by lra. replace (0 - 0) with 0 by lra.
  rewrite norm_on_axis. apply Rabs_pos_eq. lra.
Qed.

Lemma distance_rocks' : np.norm (position rock_a ^- position rock_b) = 1e6.
Proof. rewrite norm_sub_sym. apply distance_rocks. Qed.

(** The energy of a body in a system of two bodies: the kinetic energy and
    the term of the pair. *)
Lemma get_orbital_energy_pair (a b : CelestialBody.t) (t0 : R) :
  oid a <> oid b -> name a <> name b ->
  get_orbital_energy (mk [a; b] t0) a
  = Ok (0.5 * mass a * np.dot (velocity a) (velocity a)
        + (if Rgt_dec (np.norm (position a ^- position b)) 1e6
           then 0 - G * mass a * mass b / np.norm (position a ^- position b)
           else 0)).
Proof.
  intros Hoid Hname. unfold get_orbital_energy. cbn [bodies for_each].
  rewrite (ne_same_object a a eq_refl). cbn [mbind result_bind].
  assert (ne b a = Ok true) as ->.
  { unfold ne. destruct (decide (oid b = oid a)); [congruence|].
    destruct (String.eqb_spec (name b) (name a)); [congruence | reflexivity]. }
  cbn [mbind result_bind]. destruct (Rgt_dec _ _); reflexivity.
Qed.

(** Away from the boundary the two floor tests agree: below 1e6 m there is
    neither force nor potential term, above 1e6 m there are both. *)
Lemma floor_rules_agree_off_boundary (a b : CelestialBody.t) (t0 : R) :
  oid a <> oid b -> name a <> name b ->
  let r := np.norm (position b ^- position a) in
  let kinetic := 0.5 * mass a * np.dot (velocity a) (velocity a) in
  (r < 1e6 ->
   gravitational_force a b = np.zeros3 /\
   get_orbital_energy (mk [a; b] t0) a = Ok (kinetic + 0)) /\
  (r > 1e6 ->
   gravitational_force a b
   = (G * mass a * mass b / r ^ 2) *^ ((position b ^- position a) ^/ r) /\
   get_orbital_energy (mk [a; b] t0) a
   = Ok (kinetic + (0 - G * mass a * mass b / r))).
Proof.
  intros Hoid Hname r kinetic.
  rewrite (get_orbital_energy_pair a b t0 Hoid Hname).
  rewrite (norm_sub_sym (position a) (position b)). fold r.
  split; intros Hr.
  - split; [now apply gravitational_force_floor|].
    destruct (Rgt_dec r 1e6); [lra | reflexivity].
  - split; [apply gravitational_force_far; fold r; lra|].
    destruct (Rgt_dec r 1e6); [reflexivity | lra].
Qed.

(** C5 at the boundary.  Two bodies of 1 kg at exactly 1e6 m: the force
    between them is not zero, [gravitational_force] takes the distance to
    be outside the floor, while their pair adds nothing to the potential
    energy, [get_orbital_energy] takes it to be inside: the energy of the
    body at rest is 0. *)
Theorem C5_floor_rules_differ_at_boundary :
  np.norm (position rock_b ^- position rock_a) = 1e6 /\
  gravitational_force rock_a rock_b
  = np.array (G * 1 * 1 / 1e6 ^ 2 * (1e6 / 1e6)) 0 0 /\
  gravitational_force rock_a rock_b <> np.zeros3 /\
  get_orbital_energy rocks rock_a = Ok 0.
Proof.
  assert (HF : gravitational_force rock_a rock_b
               = np.array (G * 1 * 1 / 1e6 ^ 2 * (1e6 / 1e6)) 0 0).
  { rewrite gravitational_force_far by (rewrite distance_rocks; lra).
    rewrite distance_rocks. unfold rock_a, rock_b, np.smul, np.div, np.sub.
    cbn [position mass np.c0 np.c1 np.c2].
    f_equal; field. }
  repeat split.
  - apply distance_rocks.
  - exact HF.
  - rewrite HF. intros H. apply (f_equal np.c0) in H.
    cbn [np.c0 np.zeros3] in H.
    assert (0 < G * 1 * 1 / 1e6 ^ 2 * (1e6 / 1e6)); [|lra].
    assert (0 < G) by (unfold G; lra).
    repeat apply Rmult_lt_0_compat; try lra;
      apply Rinv_0_lt_compat; try lra.
  - unfold get_orbital_energy, rocks, __init__. cbn [bodies for_each].
    rewrite (ne_same_object rock_a rock_a eq_refl). cbn [mbind result_bind].
    assert (ne rock_b rock_a = Ok true) as -> by reflexivity.
    cbn [mbind result_bind]. rewrite distance_rocks'.
    destruct (Rgt_dec 1e6 1e6) as [Hgt|_]; [lra|].
    cbn [mbind result_bind]. unfold rock_a, np.dot.
    cbn [mass velocity np.c0 np.c1 np.c2]. f_equal. lra.
Qed.

Lemma C2_witness :
  ~ np.norm (position rock_b ^- position rock_a) < 1e6 /\
  np.norm (gravitational_force rock_a rock_b)
  = G * mass rock_a * mass rock_b
    / np.norm (position rock_b ^- position rock_a) ^ 2.
Proof.
  assert (Hfar : ~ np.norm (position rock_b ^- position rock_a) < 1e6)
    by (rewrite distance_rocks; lra).
  split; [exact Hfar|].
  destruct (C2_gravitational_force_formula rock_a rock_b) as [_ H].
  destruct (H Hfar) as (_ & _ & _ & Hpos).
  apply Hpos. cbn. lra.
Defined.

End Floor.

(** ** The simulator *)

Section Simulator.
Import CelestialBody OrbitalSimulator.

Lemma and_then_Normal {S} (s : S) (k : S -> outcome S) : Normal s >>> k = k s.
Proof. reflexivity. Qed.

(** The loop of [step] that records the positions. *)
Lemma record_positions_loop (l : list CelestialBody.t) :
  forall self,
    NoDup (name <$> l) ->
    (forall b, b ∈ l -> is_Some (trajectories self !! name b)) ->
    exists d,
      for_in (fun body self =>
          match trajectories self !! name body with
          | None => Raised (KeyError (name body)) self
          | Some history =>
              Normal (set_trajectories
                        (<[name body := history ++ [position body]]>
                           (trajectories self)) self)
          end) l self
      = Normal (set_trajectories d self) /\
      (forall b history, b ∈ l -> trajectories self !! name b = Some history ->
         d !! name b = Some (history ++ [position b])) /\
      (forall k, k ∉ name <$> l -> d !! k = trajectories self !! k).
Proof.
  induction l as [|x l IH]; intros self Hnd Hkeys.
  - exists (trajectories self). split; [|split].
    + cbn. now destruct self.
    + intros b h Hb. inversion Hb.
    + reflexivity.
  - rewrite fmap_cons in Hnd. apply NoDup_cons in Hnd as [Hx Hnd].
    destruct (Hkeys x) as [h0 Hh0]; [left|].
    cbn [for_in]. rewrite Hh0, and_then_Normal.
    set (d1 := <[name x := h0 ++ [position x]]> (trajectories self)).
    assert (Hne : forall b, b ∈ l -> name x <> name b).
    { intros b Hb E. apply Hx. rewrite E. now apply list_elem_of_fmap_2. }
    destruct (IH (set_trajectories d1 self) Hnd) as (d & Hloop & Hin & Hout).
    { intros b Hb. cbn. unfold d1. rewrite lookup_insert_ne by now apply Hne.
      apply Hkeys. now right. }
    exists d. split; [exact Hloop|split].
    + intros b h Hb Hh. apply elem_of_cons in Hb as [->|Hb].
      * rewrite Hout by exact Hx. cbn. unfold d1.
        rewrite lookup_insert_eq. congruence.
      * apply Hin; [exact Hb|]. cbn. unfold d1.
        rewrite lookup_insert_ne by now apply Hne. exact Hh.
    + intros k Hk. rewrite fmap_cons in Hk.
      apply not_elem_of_cons in Hk as [Hk1 Hk2].
      rewrite (Hout k Hk2). cbn. unfold d1.
      now rewrite lookup_insert_ne by congruence.
Qed.

(** One step from a state reached after [n] steps. *)
Lemma step_after_steps names dt n self :
  NoDup names -> after_steps names dt n self ->
  exists self', step self = Normal self' /\ after_steps names dt (S n) self'.
Proof.
  intros Hnd (Hnames & Hdt & Htime & Hclock & Hhist).
  set (l := PhysicsEngine.bodies (physics_engine self)) in *.
  destruct (record_positions_loop l self) as (d & Hloop & Hin & _).
  { now rewrite Hnames. }
  { intros b Hb. destruct (Hhist (name b)) as (h & -> & _); [|eauto].
    rewrite <- Hnames. now apply list_elem_of_fmap_2. }
  unfold step. fold l. rewrite Hloop, and_then_Normal.
  cbn [physics_engine set_trajectories OrbitalSimulator.dt].
  rewrite update_positions_velocities_spec. fold l.
  rewrite NoDup_names_clashing by now rewrite Hnames.
  rewrite !and_then_Normal. eexists. split; [reflexivity|].
  unfold after_steps, set_time, set_physics_engine, set_trajectories.
  cbn [physics_engine OrbitalSimulator.dt time trajectories
       PhysicsEngine.bodies PhysicsEngine.time].
  rewrite names_corrected, Hdt, Htime, Hclock, S_INR.
  repeat split; try lra; try assumption.
  intros k Hk. destruct (Hhist k Hk) as (h & Hh & Hlen).
  rewrite <- Hnames in Hk. apply list_elem_of_fmap in Hk as (b & -> & Hb).
  exists (h ++ [position b]). split; [now apply Hin|].
  rewrite length_app. cbn. lia.
Qed.

Lemma empty_trajectories_lookup (l : list CelestialBody.t) (k : string) :
  k ∈ name <$> l -> empty_trajectories l !! k = Some [].
Proof.
  unfold empty_trajectories.
  assert (H : forall d : gmap string (list np.ndarray),
            (k ∈ name <$> l \/ d !! k = Some []) ->
            foldl (fun d body => <[name body := []]> d) d l !! k = Some []).
  { induction l as [|x l IH]; intros d Hk.
    - destruct Hk as [Hk|Hk]; [inversion Hk | exact Hk].
    - cbn [foldl]. apply IH.
      destruct (decide (name x = k)) as [<-|Hne].
      + right. apply lookup_insert_eq.
      + destruct Hk as [Hk|Hk].
        * left. rewrite fmap_cons in Hk.
          apply elem_of_cons in Hk as [Hk|Hk]; [congruence | exact Hk].
        * right. now rewrite lookup_insert_ne. }
  intros Hk. apply H. now left.
Qed.

(** A new simulator is in the state "after 0 steps". *)
Lemma init_after_steps (l : list CelestialBody.t) (dt : R) :
  after_steps (name <$> l) dt 0 (__init__ l dt).
Proof.
  unfold after_steps, __init__, PhysicsEngine.__init__. cbn.
  repeat split; try lra.
  intros k Hk. exists []. split; [now apply empty_trajectories_lookup | reflexivity].
Qed.

Lemma steps_after_steps names dt m n self :
  NoDup names -> after_steps names dt m self ->
  exists self', steps n self = Normal self' /\ after_steps names dt (m + n) self'.
Proof.
  intros Hnd. revert m self. induction n as [|n IH]; intros m self Hinv.
  - exists self. rewrite Nat.add_0_r. now split.
  - destruct (step_after_steps names dt m self Hnd Hinv) as (s1 & Hs1 & Hinv1).
    destruct (IH (S m) s1 Hinv1) as (s' & Hs' & Hinv').
    exists s'. cbn [steps]. rewrite Hs1, and_then_Normal.
    split; [exact Hs'|]. now rewrite Nat.add_succ_r.
Qed.

End Simulator.

(** ** C10: the two clocks *)

Section Clocks.
Import CelestialBody OrbitalSimulator.

(** The recording loop touches the trajectories only. *)
Lemma record_positions_frame (l : list CelestialBody.t) :
  forall self,
    let o := for_in (fun body self =>
          match trajectories self !! name body with
          | None => Raised (KeyError (name body)) self
          | Some history =>
              Normal (set_trajectories
                        (<[name body := history ++ [position body]]>
                           (trajectories self)) self)
          end) l self in
    physics_engine (state_of o) = physics_engine self /\
    OrbitalSimulator.dt (state_of o) = OrbitalSimulator.dt self /\
    time (state_of o) = time self.
Proof.
  induction l as [|x l IH]; intros self; cbn; [now repeat split|].
  destruct (trajectories self !! name x) as [h|]; cbn; [|now repeat split].
  apply (IH (set_trajectories _ self)).
Qed.

(** A step that returns advances both clocks by [dt]; a step that raises
    advances neither. *)
Lemma step_clocks self :
  match step self with
  | Normal s' =>
      OrbitalSimulator.dt s' = OrbitalSimulator.dt self /\
      time s' = time self + OrbitalSimulator.dt self /\
      PhysicsEngine.time (physics_engine s')
      = PhysicsEngine.time (physics_engine self) + OrbitalSimulator.dt self
  | Raised _ s' =>
      OrbitalSimulator.dt s' = OrbitalSimulator.dt self /\
      time s' = time self /\
      PhysicsEngine.time (physics_engine s')
      = PhysicsEngine.time (physics_engine self)
  end.
Proof.
  unfold step.
  pose proof (record_positions_frame
                (PhysicsEngine.bodies (physics_engine self)) self) as Hframe.
  cbv zeta in Hframe. destruct (for_in _ _ self) as [s1|e s1];
    cbn [state_of] in Hframe; destruct Hframe as (Hpe & Hdt & Htime).
  - cbn [and_then]. rewrite update_positions_velocities_spec.
    destruct (clashing _); cbn; rewrite ?Hpe, ?Hdt, ?Htime; repeat split; lra.
  - cbn. rewrite Hpe. now repeat split.
Qed.

Lemma steps_clocks n :
  forall self,
    time self = PhysicsEngine.time (physics_engine self) ->
    let o := steps n self in
    time (state_of o) = PhysicsEngine.time (physics_engine (state_of o)) /\
    (raised_of o = None ->
     time (state_of o) = time self + INR n * OrbitalSimulator.dt self).
Proof.
  induction n as [|n IH]; intros self Hsync.
  - cbn. split; [exact Hsync | intros _; lra].
  - cbn [steps]. pose proof (step_clocks self) as Hstep.
    destruct (step self) as [s1|e s1]; destruct Hstep as (Hdt & Ht & Hc).
    + rewrite and_then_Normal.
      destruct (IH s1) as (Hsync' & Hn); [lra|].
      split; [exact Hsync'|]. intros Hok. rewrite (Hn Hok), Hdt, Ht, S_INR. lra.
    + cbn. split; [lra | discriminate].
Qed.

(** C10.  The clock of a new simulator and the clock of its engine both
    start at 0.  After [n] calls of [step()] on a new simulator the two
    clocks are equal, also when one of the calls raised; when the [n] calls
    returned, both are equal to [n * dt]; and they all return when the names
    of the bodies are pairwise distinct. *)
Theorem C10_clocks_synchronized (bodies : list CelestialBody.t) (dt : R) (n : nat) :
  let fresh := __init__ bodies dt in
  let o := steps n fresh in
  (time fresh = 0 /\ PhysicsEngine.time (physics_engine fresh) = 0) /\
  time (state_of o) = PhysicsEngine.time (physics_engine (state_of o)) /\
  (forall self, o = Normal self ->
     time self = INR n * dt /\
     PhysicsEngine.time (physics_engine self) = INR n * dt) /\
  (NoDup (name <$> bodies) -> exists self, o = Normal self).
Proof.
  intros fresh o.
  destruct (steps_clocks n fresh eq_refl) as (Hsync & Hn). fold o in Hsync, Hn.
  split; [now split|]. split; [exact Hsync|]. split.
  - intros self Ho. rewrite Ho in Hsync, Hn. cbn in Hsync, Hn.
    rewrite <- Hsync, (Hn eq_refl). cbn. split; lra.
  - intros Hnd.
    destruct (steps_after_steps _ dt 0 n fresh Hnd (init_after_steps bodies dt))
      as (self & Hself & _).
    exists self. exact Hself.
Qed.

Lemma C10_witness :
  exists self,
    steps 3 (__init__ [sun; earth] 3600) = Normal self /\
    time self = INR 3 * 3600 /\
    PhysicsEngine.time (physics_engine self) = INR 3 * 3600.
Proof.
  destruct (C10_clocks_synchronized [sun; earth] 3600 3)
    as (_ & _ & Hexact & Hreturns).
  destruct Hreturns as (self & Hself).
  - apply (bool_decide_unpack _). vm_compute. reflexivity.
  - exists self. split; [exact Hself | exact (Hexact self Hself)].
Defined.

End Clocks.

(** ** C3: run_simulation *)

Section Run.
Import CelestialBody OrbitalSimulator.

Lemma int_IZR (k : Z) : (0 <= k)%Z -> int (IZR k) = k.
Proof.
  intros Hk. unfold int.
  destruct (Rle_dec 0 (IZR k)) as [_|Hneg].
  - symmetry. apply Int_part_spec. lra.
  - exfalso. apply Hneg. now apply IZR_le.
Qed.

(** [int(duration / dt)] is [k] when [duration = k * dt]. *)
Lemma total_steps_multiple (k : Z) (dt : R) :
  0 < dt -> (0 <= k)%Z ->
  py_truediv (IZR k * dt) dt = Ok (IZR k * dt / dt) /\
  int (IZR k * dt / dt) = k.
Proof.
  intros Hdt Hk. split.
  - unfold py_truediv. destruct (Req_dec_T dt 0); [lra | reflexivity].
  - replace (IZR k * dt / dt) with (IZR k) by (field; lra).
    now apply int_IZR.
Qed.

(** While the modulus of the progress test is not 0, the loop of
    [run_simulation] is a sequence of steps. *)
Lemma run_loop_steps (modulus : Z) (indices : list Z) :
  modulus <> 0%Z ->
  forall self,
    for_in (fun step_index self =>
        step self >>> (fun self =>
          match py_mod step_index modulus with
          | Raise e => Raised e self
          | Ok _ => Normal self
          end)) indices self
    = steps (length indices) self.
Proof.
  intros Hm.
  assert (Hmod : forall i, py_mod i modulus = Ok (i mod modulus)%Z).
  { intros i. unfold py_mod.
    destruct (Z.eqb_spec modulus 0); [contradiction | reflexivity]. }
  induction indices as [|i indices IH]; intros self; [reflexivity|].
  cbn [for_in steps length]. destruct (step self) as [s1|e s1]; [|reflexivity].
  rewrite !and_then_Normal, (Hmod i), and_then_Normal. apply IH.
Qed.

(** A run of 10 steps or more does what C3 says. *)
Lemma run_simulation_long (bodies : list CelestialBody.t) (dt : R) (k : Z) :
  0 < dt -> (10 <= k)%Z -> NoDup (name <$> bodies) ->
  exists self,
    run_simulation (__init__ bodies dt) (IZR k * dt) = Normal self /\
    after_steps (name <$> bodies) dt (Z.to_nat k) self.
Proof.
  intros Hdt Hk Hnd. unfold run_simulation.
  change (OrbitalSimulator.dt (__init__ bodies dt)) with dt.
  destruct (total_steps_multiple k dt Hdt) as [-> ->]; [lia|].
  rewrite run_loop_steps, length_seqZ.
  - apply (steps_after_steps _ dt 0 _ _ Hnd (init_after_steps bodies dt)).
  - pose proof (Z.div_le_mono 10 k 10). change (10 / 10)%Z with 1%Z in H. lia.
Qed.

(** A run of 1 to 9 steps stops after its first step: the modulus of the
    progress test is [k // 10 = 0]. *)
Lemma run_simulation_short (bodies : list CelestialBody.t) (dt : R) (k : Z) :
  0 < dt -> (1 <= k < 10)%Z -> NoDup (name <$> bodies) ->
  exists self,
    step (__init__ bodies dt) = Normal self /\
    run_simulation (__init__ bodies dt) (IZR k * dt)
    = Raised ZeroDivisionError self /\
    after_steps (name <$> bodies) dt 1 self.
Proof.
  intros Hdt Hk Hnd.
  destruct (step_after_steps _ dt 0 _ Hnd (init_after_steps bodies dt))
    as (self & Hstep & Hafter).
  exists self. split; [exact Hstep|]. split; [|exact Hafter].
  unfold run_simulation.
  change (OrbitalSimulator.dt (__init__ bodies dt)) with dt.
  destruct (total_steps_multiple k dt Hdt) as [-> ->]; [lia|].
  rewrite seqZ_cons by lia. cbn [for_in].
  rewrite Hstep, and_then_Normal.
  rewrite (Z.div_small k 10) by lia. reflexivity.
Qed.

(** C3 at [k = 2].  On the simulator of the Sun and the Earth with
    [dt = 3600], [run_simulation(2 * 3600)] raises [ZeroDivisionError] in the
    progress test of its first iteration: the run does not complete, every
    body has one position in its history, not two, and the time is
    [1 * 3600], not [2 * 3600]. *)
Theorem C3_two_step_run_raises :
  exists self,
    run_simulation (__init__ [sun; earth] 3600) (2 * 3600)
    = Raised ZeroDivisionError self /\
    (exists p, trajectories self !! "Sun" = Some [p]) /\
    (exists p, trajectories self !! "Earth" = Some [p]) /\
    time self = 3600.
Proof.
  destruct (run_simulation_short [sun; earth] 3600 2)
    as (self & _ & Hrun & _ & _ & Htime & _ & Hhist).
  - lra.
  - lia.
  - apply (bool_decide_unpack _). vm_compute. reflexivity.
  - exists self. split; [exact Hrun|].
    assert (Hone : forall k, k ∈ name <$> [sun; earth] ->
              exists p, trajectories self !! k = Some [p]).
    { intros k Hk. destruct (Hhist k Hk) as (h & -> & Hlen).
      destruct h as [|p [|? ?]]; try discriminate Hlen. now exists p. }
    split; [apply Hone; cbn; left|].
    split; [apply Hone; cbn; right; left|].
    rewrite Htime. cbn. lra.
Qed.

End Run.

(** * Further properties of the engine *)

(** ** The force model *)

Section ForceExtras.
Import CelestialBody PhysicsEngine.
Open Scope np_scope.

(** X1.  Newton's third law, floor included.  In exact arithmetic, the
    force on [b] due to [a] is the opposite of the force on [a] due to [b],
    for any two bodies.  (In floating point the two products
    [G * m1 * m2] and [G * m2 * m1] may differ in their last bit.) *)
Theorem X1_force_third_law (a b : CelestialBody.t) :
  gravitational_force b a = (-1) *^ gravitational_force a b.
Proof.
  pose proof (gravitational_force_antisym a b) as H.
  apply array_eq; simpl;
    [apply (f_equal np.c0) in H | apply (f_equal np.c1) in H
    | apply (f_equal np.c2) in H]; simpl in H; lra.
Qed.

Lemma existsb_clash_false l body :
  clashing l = false -> body ∈ l -> existsb (clash body) l = false.
Proof.
  intros Hc Hb. unfold clashing in Hc.
  destruct (existsb (clash body) l) eqn:E; [|reflexivity].
  rewrite <- Hc. symmetry. apply existsb_exists.
  exists body. split; [now apply list_elem_of_In | exact E].
Qed.

Lemma mapM_calculate_forces self :
  clashing (bodies self) = false ->
  mapM (calculate_forces self) (bodies self)
  = Ok (net_force (bodies self) <$> bodies self).
Proof.
  intros Hc.
  assert (H : forall l, (forall b, b ∈ l -> b ∈ bodies self) ->
            mapM (calculate_forces self) l = Ok (net_force (bodies self) <$> l)).
  { induction l as [|x l IH]; intros Hl; [reflexivity|].
    change (mapM (calculate_forces self) (x :: l))
      with (y ← calculate_forces self x;
            k ← mapM (calculate_forces self) l; mret (y :: k)).
    rewrite calculate_forces_spec, existsb_clash_false, IH; try assumption.
    - reflexivity.
    - intros b Hb. apply Hl. now right.
    - apply Hl. left. }
  now apply H.
Qed.

(** X2.  The net forces of a system add up to zero.  When the names of the
    bodies are pairwise distinct, [calculate_forces] returns a force for
    every body, and in exact arithmetic these forces sum to the zero
    vector. *)
Theorem X2_net_forces_sum_to_zero (self : PhysicsEngine.t) :
  NoDup (name <$> bodies self) ->
  exists forces,
    mapM (calculate_forces self) (bodies self) = Ok forces /\
    length forces = length (bodies self) /\
    vsum forces = np.zeros3.
Proof.
  intros Hnd. exists (net_force (bodies self) <$> bodies self).
  split; [|split].
  - apply mapM_calculate_forces, NoDup_names_clashing, Hnd.
  - apply length_fmap.
  - apply (vsum_antisym pair_force), pair_force_antisym.
Qed.

Lemma X2_witness :
  exists forces,
    mapM (calculate_forces sun_earth) (bodies sun_earth) = Ok forces /\
    length forces = 2%nat /\ vsum forces = np.zeros3.
Proof.
  apply (X2_net_forces_sum_to_zero sun_earth).
  apply (bool_decide_unpack _). vm_compute. reflexivity.
Defined.

Lemma clash_iff body other :
  clash body other = true <->
  oid other <> oid body /\ name other = name body /\ mass other = mass body.
Proof.
  unfold clash, ne.
  destruct (decide (oid other = oid body)) as [E|E].
  { split; [discriminate | intros (H & _); contradiction]. }
  destruct (String.eqb_spec (name other) (name body)) as [En|En]; cbn [negb].
  - destruct (Req_dec_T (mass other) (mass body)) as [Em|Em].
    + split; [now intros _ | reflexivity].
    + split; [discriminate | intros (_ & _ & H); contradiction].
  - split; [discriminate | intros (_ & H & _); contradiction].
Qed.

(** X3.  The one exception of the force loop.  [calculate_forces] raises
    exactly when the list holds another object with the name and the mass
    of the body: the generated [__eq__] then compares the position arrays,
    and the exception is numpy's [ValueError] on the truth value of an
    array.  The same holds for [acceleration]. *)
Theorem X3_forces_raise_on_equal_name_and_mass (self : PhysicsEngine.t)
    (body : CelestialBody.t) :
  let twin := exists other,
    other ∈ bodies self /\ oid other <> oid body /\
    name other = name body /\ mass other = mass body in
  (twin -> calculate_forces self body = Raise ambiguous_truth_value /\
           acceleration self body = Raise ambiguous_truth_value) /\
  (~ twin -> exists force,
       calculate_forces self body = Ok force /\
       acceleration self body = Ok (force ^/ mass body)).
Proof.
  intros twin. rewrite acceleration_spec, calculate_forces_spec.
  destruct (existsb (clash body) (bodies self)) eqn:E.
  - split; [now intros _|]. intros Hno. exfalso. apply Hno.
    apply existsb_exists in E as (other & Hin & Hclash).
    exists other. split; [now apply list_elem_of_In | now apply clash_iff].
  - split; [|intros _; eauto]. intros (other & Hin & Hclash).
    assert (existsb (clash body) (bodies self) = true); [|congruence].
    apply existsb_exists. exists other.
    split; [now apply list_elem_of_In | now apply clash_iff].
Qed.

Lemma X3_witness :
  calculate_forces (PhysicsEngine.__init__ [rock_a; rock_twin]) rock_a
  = Raise ambiguous_truth_value.
Proof.
  destruct (X3_forces_raise_on_equal_name_and_mass
              (PhysicsEngine.__init__ [rock_a; rock_twin]) rock_a) as [H _].
  apply H. exists rock_twin. cbn. repeat split; [right; left | lia].
Defined.

End ForceExtras.

(** ** The integrator *)

Section IntegratorExtras.
Import CelestialBody PhysicsEngine.
Open Scope np_scope.

Lemma body_eq (a b : CelestialBody.t) :
  fixed_fields a = fixed_fields b ->
  position a = position b -> velocity a = velocity b -> a = b.
Proof.
  destruct a, b. unfold fixed_fields. cbn. intros [= -> -> -> -> -> ->] -> ->.
  reflexivity.
Qed.

Lemma clashing_single b : clashing [b] = false.
Proof.
  unfold clashing, clash. cbn [existsb].
  now rewrite (ne_same_object b b eq_refl).
Qed.

Lemma accel_single b : mass b <> 0 -> accel [b] b = np.zeros3.
Proof.
  intros Hm. unfold accel, net_force, pair_force. cbn [fmap list_fmap vsum foldr].
  rewrite (ne_same_object b b eq_refl).
  apply array_eq; simpl; field; exact Hm.
Qed.

Lemma update_single b t0 dt :
  mass b <> 0 ->
  update_positions_velocities (mk [b] t0) dt
  = Normal (mk [set_position (position b ^+ velocity b ^* dt) b] (t0 + dt)).
Proof.
  intros Hm. rewrite update_positions_velocities_spec. cbn [bodies time].
  rewrite clashing_single. cbn [fmap list_fmap]. do 3 f_equal.
  unfold corrected, predicted. cbn [fmap list_fmap].
  rewrite (accel_single b Hm).
  rewrite (accel_single (drift dt (kick [b] dt b))) by exact Hm.
  unfold kick. rewrite (accel_single b Hm).
  apply body_eq; [reflexivity | |]; apply array_eq; simpl; lra.
Qed.

(** X4.  Inertia.  A body alone in the engine, of mass not zero, feels no
    force, itself excluded from the force loop: [n] calls of
    [update_positions_velocities] return normally and leave its velocity as
    it was; in exact arithmetic the [n] additions of [v * dt] move it to
    [p + v * (n * dt)], and the [n] additions of [dt] advance the time by
    [n * dt]. *)
Theorem X4_lone_body_moves_uniformly (b : CelestialBody.t) (t0 dt : R) (n : nat) :
  mass b <> 0 ->
  update_n n dt (mk [b] t0)
  = Normal (mk [set_position (position b ^+ velocity b ^* (INR n * dt)) b]
               (t0 + INR n * dt)).
Proof.
  intros Hm. revert b t0 Hm. induction n as [|n IH]; intros b t0 Hm.
  - cbn [update_n INR]. do 2 f_equal.
    + f_equal. apply body_eq; [reflexivity | | reflexivity].
      apply array_eq; simpl; lra.
    + lra.
  - cbn [update_n]. rewrite (update_single b t0 dt Hm). cbn [and_then].
    rewrite IH by exact Hm. rewrite S_INR. do 2 f_equal.
    + f_equal. apply body_eq; [reflexivity | | reflexivity].
      apply array_eq; simpl; lra.
    + lra.
Qed.

Lemma X4_witness :
  update_n 24 3600 (mk [earth] 0)
  = Normal (mk [set_position (position earth ^+ velocity earth ^* (INR 24 * 3600))
                  earth] (0 + INR 24 * 3600)).
Proof.
  apply (X4_lone_body_moves_uniformly earth 0 3600 24).
  cbn. unfold EARTH_MASS. lra.
Defined.

(** X5.  What the integrator never touches.  Whatever the outcome of [n]
    calls of [update_positions_velocities], an exception included, the bodies
    are the same objects in the same order, with the names, masses, radii,
    colours and [is_3d] tags they had. *)
Theorem X5_step_keeps_fixed_fields (self : PhysicsEngine.t) (dt : R) (n : nat) :
  fixed_fields <$> bodies (state_of (update_n n dt self))
  = fixed_fields <$> bodies self.
Proof.
  revert self. induction n as [|n IH]; intros self; [reflexivity|].
  cbn [update_n]. rewrite update_positions_velocities_spec.
  destruct (clashing (bodies self)); [reflexivity|].
  cbn [and_then]. rewrite IH. cbn [bodies].
  rewrite <- list_fmap_compose. reflexivity.
Qed.

(** X6.  A step of length zero changes nothing: for bodies with pairwise
    distinct names and masses that are not zero (so that every acceleration
    is a number), [update_positions_velocities(0)] returns the engine as it
    was. *)
Theorem X6_zero_step_is_identity (self : PhysicsEngine.t) :
  NoDup (name <$> bodies self) ->
  (forall b, b ∈ bodies self -> mass b <> 0) ->
  update_positions_velocities self 0 = Normal self.
Proof.
  intros Hnd _. rewrite update_positions_velocities_spec.
  rewrite (NoDup_names_clashing _ Hnd). destruct self as [l t0].
  cbn [bodies time]. do 2 f_equal; [|lra].
  rewrite <- (list_fmap_id l) at 3. apply list_fmap_ext. intros i b _.
  apply body_eq; [reflexivity | |]; apply array_eq; simpl; lra.
Qed.

Lemma X6_witness : update_positions_velocities sun_earth 0 = Normal sun_earth.
Proof.
  apply (X6_zero_step_is_identity sun_earth).
  - apply (bool_decide_unpack _). vm_compute. reflexivity.
  - intros b Hb. cbn in Hb.
    apply elem_of_cons in Hb as [->|Hb];
      [|apply elem_of_cons in Hb as [->|Hb]; [|inversion Hb]];
      cbn; unfold SUN_MASS, EARTH_MASS; lra.
Defined.

(** X7.  The centre of mass moves with the total momentum.  For bodies
    with pairwise distinct names and masses that are not zero, a step
    returns normally and, in exact arithmetic, the sum of [mass * position]
    grows by [dt] times the total momentum before the step. *)
Theorem X7_centre_of_mass (self : PhysicsEngine.t) (dt : R) :
  NoDup (name <$> bodies self) ->
  (forall b, b ∈ bodies self -> mass b <> 0) ->
  exists self',
    update_positions_velocities self dt = Normal self' /\
    mass_moment (bodies self')
    = mass_moment (bodies self) ^+ momentum (bodies self) ^* dt.
Proof.
  intros Hnd Hm. rewrite update_positions_velocities_spec.
  rewrite (NoDup_names_clashing _ Hnd). eexists. split; [reflexivity|].
  cbn [bodies]. set (l := bodies self) in *.
  unfold mass_moment, momentum. rewrite <- list_fmap_compose.
  rewrite (list_fmap_ext _
             (fun b => (mass b *^ position b ^+ dt *^ (mass b *^ velocity b))
                       ^+ (dt * dt) *^ net_force l b) l).
  - rewrite !vsum_map_add, !vsum_map_smul.
    rewrite (net_forces_cancel l).
    rewrite smul_zeros, add_zeros_r. f_equal. apply smul_muls.
  - intros i b Hb. cbn.
    assert (mass b <> 0) by (eapply Hm, list_elem_of_lookup_2, Hb).
    apply array_eq; simpl; field; assumption.
Qed.

Lemma X7_witness :
  exists self',
    update_positions_velocities sun_earth 3600 = Normal self' /\
    mass_moment (bodies self')
    = mass_moment (bodies sun_earth) ^+ momentum (bodies sun_earth) ^* 3600.
Proof.
  apply (X7_centre_of_mass sun_earth 3600).
  - apply (bool_decide_unpack _). vm_compute. reflexivity.
  - intros b Hb. cbn in Hb.
    apply elem_of_cons in Hb as [->|Hb];
      [|apply elem_of_cons in Hb as [->|Hb]; [|inversion Hb]];
      cbn; unfold SUN_MASS, EARTH_MASS; lra.
Defined.

End IntegratorExtras.

(** ** Change of frame *)

Section Galilean.
Import CelestialBody PhysicsEngine.
Open Scope np_scope.
Variables c u : np.ndarray.

Lemma ne_galilean c' u' a b : ne (galilean c' u' a) (galilean c' u' b) = ne a b.
Proof. now apply ne_ext. Qed.

Lemma gravitational_force_galilean a b :
  gravitational_force (galilean c u a) (galilean c u b) = gravitational_force a b.
Proof.
  unfold gravitational_force.
  assert (position (galilean c u b) ^- position (galilean c u a)
          = position b ^- position a) as ->
    by (apply array_eq; simpl; ring).
  reflexivity.
Qed.

Lemma accel_galilean l b :
  accel (galilean c u <$> l) (galilean c u b) = accel l b.
Proof.
  unfold accel, net_force. rewrite <- list_fmap_compose.
  rewrite (list_fmap_ext _ (pair_force b) l); [reflexivity|].
  intros i a _. cbn. unfold pair_force.
  now rewrite ne_galilean, gravitational_force_galilean.
Qed.

Lemma clashing_galilean l : clashing (galilean c u <$> l) = clashing l.
Proof. apply clashing_fmap. intros b. repeat split. Qed.

End Galilean.

Section GalileanStep.
Import CelestialBody PhysicsEngine.
Open Scope np_scope.

Lemma predicted_galilean c u l dt :
  predicted (galilean c u <$> l) dt
  = galilean (c ^+ u ^* dt) u <$> predicted l dt.
Proof.
  unfold predicted. rewrite <- !list_fmap_compose.
  apply list_fmap_ext. intros i b _. cbn.
  unfold kick. rewrite accel_galilean.
  apply body_eq; [reflexivity | |]; apply array_eq; simpl; ring.
Qed.

Lemma corrected_galilean c u l dt b :
  corrected (galilean c u <$> l) dt (galilean c u b)
  = galilean (c ^+ u ^* dt) u (corrected l dt b).
Proof.
  unfold corrected. rewrite predicted_galilean, accel_galilean.
  assert (drift dt (kick (galilean c u <$> l) dt (galilean c u b))
          = galilean (c ^+ u ^* dt) u (drift dt (kick l dt b))) as ->.
  { unfold kick. rewrite accel_galilean.
    apply body_eq; [reflexivity | |]; apply array_eq; simpl; ring. }
  rewrite accel_galilean.
  apply body_eq; [reflexivity | |]; apply array_eq; simpl; ring.
Qed.

(** X8.  Galilean invariance.  In exact arithmetic, for a list of pairwise
    distinct bodies (no object is listed twice) whose masses are not zero:
    seen from a frame displaced by [c] and moving with the constant
    velocity [u], a step is the same step.  The outcome of
    [update_positions_velocities] on the bodies moved by [c] and boosted by
    [u] is the outcome on the original bodies, moved by [c + u * dt] and
    boosted by [u]; the exception, if any, is the same, and then the bodies
    are as they were. *)
Theorem X8_galilean_invariance (self : PhysicsEngine.t) (dt : R)
    (c u : np.ndarray) :
  NoDup (oid <$> bodies self) ->
  (forall b, b ∈ bodies self -> mass b <> 0) ->
  update_positions_velocities
    (set_bodies (galilean c u <$> bodies self) self) dt
  = outcome_map
      (fun s => set_bodies
                  (galilean (if raised_of (update_positions_velocities self dt)
                             is Some _ then c else c ^+ u ^* dt) u
                   <$> bodies s) s)
      (update_positions_velocities self dt).
Proof.
  intros _ _.
  destruct self as [l t0]. rewrite !update_positions_velocities_spec.
  unfold set_bodies. cbn [bodies time]. rewrite clashing_galilean.
  destruct (clashing l); cbn [outcome_map raised_of bodies time]; [reflexivity|].
  do 2 f_equal. rewrite <- !list_fmap_compose.
  apply list_fmap_ext. intros i b _. cbn. apply corrected_galilean.
Qed.

Lemma X8_witness :
  update_positions_velocities
    (set_bodies (galilean (np.array 1e9 0 0) (np.array 0 100 0)
                 <$> bodies sun_earth) sun_earth) 3600
  = outcome_map
      (fun s => set_bodies
                  (galilean
                     (if raised_of (update_positions_velocities sun_earth 3600)
                      is Some _ then np.array 1e9 0 0
                      else np.array 1e9 0 0 ^+ np.array 0 100 0 ^* 3600)
                     (np.array 0 100 0)
                   <$> bodies s) s)
      (update_positions_velocities sun_earth 3600).
Proof.
  apply (X8_galilean_invariance sun_earth 3600).
  - apply (bool_decide_unpack _). vm_compute. reflexivity.
  - intros b Hb. cbn in Hb.
    apply elem_of_cons in Hb as [->|Hb];
      [|apply elem_of_cons in Hb as [->|Hb]; [|inversion Hb]];
      cbn; unfold SUN_MASS, EARTH_MASS; lra.
Defined.

End GalileanStep.

(** ** Diagnostics *)

Section Diagnostics.
Import CelestialBody PhysicsEngine.
Open Scope np_scope.

Lemma rsum_cons x l : rsum (x :: l) = x + rsum l.
Proof. reflexivity. Qed.

Lemma rsum_Permutation l l' : l ≡ₚ l' -> rsum l = rsum l'.
Proof.
  induction 1 as [|x l l' _ IH|x y l|l l' l'' _ IH1 _ IH2].
  - reflexivity.
  - now rewrite !rsum_cons, IH.
  - rewrite !rsum_cons. lra.
  - now rewrite IH1.
Qed.

Lemma rsum_map_add {A} (g h : A -> R) (l : list A) :
  rsum ((fun a => g a + h a) <$> l) = rsum (g <$> l) + rsum (h <$> l).
Proof.
  induction l as [|a l IH]; [cbn; lra|].
  rewrite !fmap_cons, !rsum_cons, IH. lra.
Qed.

Lemma rsum_nonpos {A} (g : A -> R) (l : list A) :
  (forall a, a ∈ l -> g a <= 0) -> rsum (g <$> l) <= 0.
Proof.
  induction l as [|a l IH]; intros H; [cbn; lra|].
  rewrite fmap_cons, rsum_cons.
  assert (g a <= 0) by (apply H; left).
  assert (rsum (g <$> l) <= 0) by (apply IH; intros; apply H; now right).
  lra.
Qed.

(** The loop of [get_orbital_energy] in closed form. *)
Lemma get_orbital_energy_spec self body :
  get_orbital_energy self body
  = if existsb (clash body) (bodies self) then Raise ambiguous_truth_value
    else Ok (kinetic_energy body + rsum (pair_potential body <$> bodies self)).
Proof.
  assert (H : forall l acc,
    for_each
      (fun potential other_body =>
         differs ← ne other_body body;
         if differs : bool then
           if Rgt_dec (np.norm (position body ^- position other_body)) 1e6 then
             Ok (potential - G * mass body * mass other_body
                             / np.norm (position body ^- position other_body))
           else Ok potential
         else Ok potential) acc l
    = if existsb (clash body) l then Raise ambiguous_truth_value
      else Ok (acc + rsum (pair_potential body <$> l))).
  { induction l as [|x l IH]; intros acc.
    - cbn. f_equal. lra.
    - cbn [for_each existsb]. rewrite fmap_cons, rsum_cons.
      unfold clash at 1, pair_potential at 1.
      destruct (ne x body) as [[|]|e] eqn:Hne; cbn [mbind result_bind orb].
      + cbv zeta. destruct (Rgt_dec _ _); cbn [mbind result_bind];
          rewrite IH; destruct (existsb _ _); try reflexivity; f_equal; lra.
      + rewrite IH. destruct (existsb _ _); [reflexivity|]. f_equal. lra.
      + now rewrite (ne_raise _ _ _ Hne). }
  unfold get_orbital_energy. cbv zeta. rewrite H.
  destruct (existsb _ _); [reflexivity|].
  cbn [mbind result_bind]. unfold kinetic_energy. f_equal. lra.
Qed.

(** X9.  In exact arithmetic the energy of a body does not depend on the
    order of the bodies in the engine, nor on the time of the engine: the
    result, an exception included, is the same for every permutation of the
    list.  (In floating point the order of the potential terms shows in the
    last bits of the sum.) *)
Theorem X9_energy_order_independent (l l' : list CelestialBody.t) (t0 t1 : R)
    (body : CelestialBody.t) :
  l ≡ₚ l' ->
  get_orbital_energy (mk l t0) body = get_orbital_energy (mk l' t1) body.
Proof.
  intros H. rewrite !get_orbital_energy_spec. cbn [bodies].
  rewrite (existsb_Permutation _ l l' H).
  rewrite (rsum_Permutation (pair_potential body <$> l)
             (pair_potential body <$> l')) by now rewrite H.
  reflexivity.
Qed.

Lemma X9_witness :
  get_orbital_energy (mk [sun; earth; moon] 0) earth
  = get_orbital_energy (mk [moon; sun; earth] 3600) earth.
Proof.
  apply (X9_energy_order_independent [sun; earth; moon] [moon; sun; earth]).
  apply (perm_trans (perm_skip sun (perm_swap moon earth []))
                    (perm_swap moon sun [earth])).
Defined.

Lemma pair_potential_nonpos body other :
  0 <= mass body -> 0 <= mass other -> pair_potential body other <= 0.
Proof.
  intros Hb Ho. unfold pair_potential.
  destruct (ne other body) as [[|]|]; try lra. cbv zeta.
  destruct (Rgt_dec _ _) as [Hr|_]; [|lra].
  assert (0 < G) by (unfold G; lra).
  assert (0 <= G * mass body * mass other)
    by (apply Rmult_le_pos; [apply Rmult_le_pos|]; lra).
  assert (0 < / np.norm (position body ^- position other))
    by (apply Rinv_0_lt_compat; lra).
  unfold Rdiv. nra.
Qed.

(** X10.  The potential energy is never positive: when no mass is negative
    and [get_orbital_energy] returns, the energy of a body is at most its
    kinetic energy [0.5 * m * |v|^2]; for a body alone in the engine it is
    the kinetic energy. *)
Theorem X10_energy_at_most_kinetic (self : PhysicsEngine.t)
    (body : CelestialBody.t) (energy : R) :
  0 <= mass body ->
  (forall b, b ∈ bodies self -> 0 <= mass b) ->
  get_orbital_energy self body = Ok energy ->
  energy <= 0.5 * mass body * np.dot (velocity body) (velocity body) /\
  (bodies self = [body] ->
   energy = 0.5 * mass body * np.dot (velocity body) (velocity body)).
Proof.
  intros Hb Hm. rewrite get_orbital_energy_spec.
  destruct (existsb _ _); [discriminate|]. intros [= <-].
  unfold kinetic_energy. split.
  - pose proof (rsum_nonpos (pair_potential body) (bodies self)) as H.
    assert (rsum (pair_potential body <$> bodies self) <= 0); [|lra].
    apply H. intros a Ha. apply pair_potential_nonpos; auto.
  - intros ->. cbn. unfold pair_potential.
    rewrite (ne_same_object body body eq_refl). lra.
Qed.

Lemma X10_witness :
  exists energy,
    get_orbital_energy sun_earth earth = Ok energy /\
    energy <= 0.5 * mass earth * np.dot (velocity earth) (velocity earth).
Proof.
  assert (H : exists energy, get_orbital_energy sun_earth earth = Ok energy).
  { rewrite get_orbital_energy_spec. eexists. reflexivity. }
  destruct H as (energy & He). exists energy. split; [exact He|].
  apply (X10_energy_at_most_kinetic sun_earth earth energy); [| |exact He].
  - cbn. unfold EARTH_MASS. lra.
  - intros b Hb. cbn in Hb.
    apply elem_of_cons in Hb as [->|Hb];
      [|apply elem_of_cons in Hb as [->|Hb]; [|inversion Hb]];
      cbn; unfold SUN_MASS, EARTH_MASS; lra.
Defined.

End Diagnostics.

Section TotalEnergy.
Import CelestialBody PhysicsEngine.
Open Scope np_scope.

Lemma mapM_Ok {A B} (f : A -> result B) (g : A -> B) (l : list A) :
  (forall a, a ∈ l -> f a = Ok (g a)) -> mapM f l = Ok (g <$> l).
Proof.
  induction l as [|x l IH]; intros H; [reflexivity|].
  change (mapM f (x :: l)) with (y ← f x; k ← mapM f l; mret (y :: k)).
  rewrite H by left. rewrite IH by (intros; apply H; now right). reflexivity.
Qed.

Lemma pair_potential_sym a b : pair_potential a b = pair_potential b a.
Proof.
  unfold pair_potential. rewrite (ne_sym b a), (norm_sub_sym (position a)).
  destruct (ne a b) as [[|]|]; try reflexivity. cbv zeta.
  destruct (Rgt_dec _ _); [|reflexivity]. f_equal. field.
  pose proof (norm_nonneg (position b ^- position a)). lra.
Qed.

Lemma pair_potential_self a : pair_potential a a = 0.
Proof. unfold pair_potential. now rewrite (ne_same_object a a eq_refl). Qed.

(** Summing over all ordered pairs counts every pair twice. *)
Lemma rsum_pairs_twice l :
  rsum ((fun a => rsum (pair_potential a <$> l)) <$> l)
  = 2 * potential_of_pairs l.
Proof.
  induction l as [|x l IH]; [cbn; lra|].
  rewrite fmap_cons, rsum_cons, fmap_cons, rsum_cons, pair_potential_self.
  rewrite (list_fmap_ext (fun a => rsum (pair_potential a <$> x :: l))
             (fun a => pair_potential x a + rsum (pair_potential a <$> l)) l)
    by (intros i a _; cbn beta; rewrite fmap_cons, rsum_cons;
        now rewrite (pair_potential_sym a x)).
  rewrite rsum_map_add, IH. cbn [potential_of_pairs]. lra.
Qed.

(** X11.  The sum of the energies of all bodies, the "total energy" that
    the callers display, counts the potential energy of every pair twice.
    For bodies with pairwise distinct names [get_orbital_energy] returns for
    every body, and in exact arithmetic the energies add up to the kinetic
    energies plus twice the potential energy of the pairs. *)
Theorem X11_total_energy_counts_pairs_twice (self : PhysicsEngine.t) :
  NoDup (name <$> bodies self) ->
  exists energies,
    mapM (get_orbital_energy self) (bodies self) = Ok energies /\
    rsum energies
    = rsum (kinetic_energy <$> bodies self)
      + 2 * potential_of_pairs (bodies self).
Proof.
  intros Hnd. pose proof (NoDup_names_clashing _ Hnd) as Hc.
  set (l := bodies self) in *.
  exists ((fun b => kinetic_energy b + rsum (pair_potential b <$> l)) <$> l).
  split.
  - apply mapM_Ok. intros b Hb. rewrite get_orbital_energy_spec. fold l.
    now rewrite (existsb_clash_false l b Hc Hb).
  - now rewrite rsum_map_add, rsum_pairs_twice.
Qed.

Lemma X11_witness :
  exists energies,
    mapM (get_orbital_energy sun_earth) (bodies sun_earth) = Ok energies /\
    rsum energies
    = rsum (kinetic_energy <$> bodies sun_earth)
      + 2 * potential_of_pairs (bodies sun_earth).
Proof.
  apply (X11_total_energy_counts_pairs_twice sun_earth).
  apply (bool_decide_unpack _). vm_compute. reflexivity.
Defined.

(** X12.  The angular momentum of a body constructed from a 2-component
    position [x, y] and a 2-component velocity [vx, vy] points along the z
    axis: it is [(0, 0, m * (x * vy - y * vx))]. *)
Theorem X12_planar_angular_momentum (id : nat) (name : string)
    (m x y vx vy radius : R) (color : string) (flag : bool)
    (b : CelestialBody.t) :
  __post_init__ id name m [x; y] [vx; vy] radius color flag = Ok b ->
  get_angular_momentum b = np.array 0 0 (m * (x * vy - y * vx)).
Proof.
  intros [= <-]. unfold get_angular_momentum.
  apply array_eq; simpl; ring.
Qed.

Lemma X12_witness :
  exists b,
    __post_init__ 1 "Earth" EARTH_MASS [1.496e11; 0] [0; 29780] 5 "blue" true
    = Ok b /\
    get_angular_momentum b
    = np.array 0 0 (EARTH_MASS * (1.496e11 * 29780 - 0 * 0)).
Proof.
  eexists. split; [reflexivity|].
  apply (X12_planar_angular_momentum 1 "Earth" EARTH_MASS 1.496e11 0 0 29780
           5 "blue" true).
  reflexivity.
Defined.

End TotalEnergy.

(** ** Motion in the plane *)

Section Planar.
Import CelestialBody PhysicsEngine.
Open Scope np_scope.

Lemma vsum_c2 {A} (g : A -> np.ndarray) (l : list A) :
  (forall a, a ∈ l -> np.c2 (g a) = 0) -> np.c2 (vsum (g <$> l)) = 0.
Proof.
  induction l as [|a l IH]; intros H; [reflexivity|].
  rewrite fmap_cons, vsum_cons. cbn [np.add np.c2].
  rewrite H by left. rewrite IH by (intros; apply H; now right). lra.
Qed.

Lemma gravitational_force_c2 a b :
  np.c2 (position a) = 0 -> np.c2 (position b) = 0 ->
  np.c2 (gravitational_force a b) = 0.
Proof.
  intros Ha Hb. unfold gravitational_force.
  destruct (Rlt_dec _ _); [reflexivity|].
  cbn [np.smul np.div np.sub np.c2]. rewrite Ha, Hb. unfold Rdiv. ring.
Qed.

Lemma accel_c2 l b :
  mass b <> 0 -> np.c2 (position b) = 0 ->
  (forall a, a ∈ l -> np.c2 (position a) = 0) ->
  np.c2 (accel l b) = 0.
Proof.
  intros Hm Hb Hl. unfold accel, net_force. cbn [np.div np.c2].
  rewrite vsum_c2; [field; exact Hm|].
  intros a Ha. unfold pair_force.
  destruct (ne a b) as [[|]|]; try reflexivity.
  apply gravitational_force_c2; auto.
Qed.

Lemma corrected_planar l dt b :
  (forall a, a ∈ l -> mass a <> 0) ->
  (forall a, a ∈ l -> planar a) ->
  b ∈ l -> planar (corrected l dt b).
Proof.
  intros Hm Hl Hb. destruct (Hl b Hb) as [Hp Hv].
  assert (Ha0 : np.c2 (accel l b) = 0).
  { apply accel_c2; auto. intros a Ha. apply Hl, Ha. }
  assert (Hmid : forall a, a ∈ predicted l dt -> np.c2 (position a) = 0).
  { intros a Ha. unfold predicted in Ha.
    apply list_elem_of_fmap in Ha as (a0 & -> & Ha0').
    destruct (Hl a0 Ha0') as [Hp0 Hv0].
    unfold drift, kick, set_position, set_velocity.
    cbn [position velocity np.add np.muls np.c2].
    rewrite Hp0, Hv0, accel_c2; auto; [lra|].
    intros a1 Ha1. apply Hl, Ha1. }
  assert (Ha1 : np.c2 (accel (predicted l dt) (drift dt (kick l dt b))) = 0).
  { apply accel_c2; [exact (Hm b Hb) | | exact Hmid].
    apply Hmid. unfold predicted.
    apply (list_elem_of_fmap_2 (fun b => drift dt (kick l dt b)) l b Hb). }
  unfold planar, corrected.
  set (a1 := accel (predicted l dt) (drift dt (kick l dt b))) in *.
  unfold drift, kick. set (a0 := accel l b) in *.
  unfold set_position, set_velocity.
  cbn [position velocity np.add np.muls np.div np.c2].
  rewrite Hp, Hv, Ha0, Ha1. split; lra.
Qed.

(** X13.  A planar system stays planar.  When every body has [z = 0] and
    [vz = 0], the names are pairwise distinct and no mass is zero, [n] calls
    of [update_positions_velocities] return normally and every body still
    has [z = 0] and [vz = 0]. *)
Theorem X13_planar_system_stays_planar (self : PhysicsEngine.t) (dt : R)
    (n : nat) :
  NoDup (name <$> bodies self) ->
  (forall b, b ∈ bodies self -> mass b <> 0) ->
  (forall b, b ∈ bodies self -> planar b) ->
  exists self',
    update_n n dt self = Normal self' /\
    forall b, b ∈ bodies self' -> planar b.
Proof.
  revert self. induction n as [|n IH]; intros self Hnd Hm Hpl.
  - exists self. now split.
  - cbn [update_n]. rewrite update_positions_velocities_spec.
    rewrite (NoDup_names_clashing _ Hnd). cbn [and_then].
    apply IH; cbn [bodies].
    + now rewrite names_corrected.
    + apply (masses_corrected _ _ (fun m => m <> 0)), Hm.
    + intros b Hb. apply list_elem_of_fmap in Hb as (b0 & -> & Hb0).
      now apply corrected_planar.
Qed.

End Planar.

(** * Further properties of the simulator *)

Section StepExtras.
Import CelestialBody OrbitalSimulator.

(** X14.  What a step records.  When the names of the bodies are pairwise
    distinct and each of them has a history, [step()] returns normally; the
    history of every body has grown by one entry, the position of the body
    before the step; the histories under other names are as they were; the
    engine is the one [update_positions_velocities(dt)] leaves. *)
Theorem X14_step_records_position_before (self : OrbitalSimulator.t) :
  let l := PhysicsEngine.bodies (physics_engine self) in
  NoDup (name <$> l) ->
  (forall b, b ∈ l -> is_Some (trajectories self !! name b)) ->
  exists self',
    step self = Normal self' /\
    PhysicsEngine.update_positions_velocities (physics_engine self)
      (OrbitalSimulator.dt self) = Normal (physics_engine self') /\
    (forall b history,
       b ∈ l -> trajectories self !! name b = Some history ->
       trajectories self' !! name b = Some (history ++ [position b])) /\
    (forall k, k ∉ name <$> l ->
       trajectories self' !! k = trajectories self !! k).
Proof.
  intros l Hnd Hkeys.
  destruct (record_positions_loop l self Hnd Hkeys) as (d & Hloop & Hin & Hout).
  unfold step. fold l. rewrite Hloop, and_then_Normal.
  cbn [physics_engine set_trajectories OrbitalSimulator.dt].
  rewrite update_positions_velocities_spec. fold l.
  rewrite (NoDup_names_clashing _ Hnd), !and_then_Normal.
  eexists. split; [reflexivity|]. cbn. repeat split; assumption.
Qed.

Lemma X14_witness :
  exists self',
    step (__init__ [sun; earth] 3600) = Normal self' /\
    trajectories self' !! "Earth" = Some [position earth].
Proof.
  destruct (X14_step_records_position_before (__init__ [sun; earth] 3600))
    as (self' & Hstep & _ & Hin & _).
  - apply (bool_decide_unpack _). vm_compute. reflexivity.
  - intros b Hb. exists []. apply empty_trajectories_lookup.
    now apply list_elem_of_fmap_2.
  - exists self'. split; [exact Hstep|].
    apply (Hin earth []).
    + cbn. right. left.
    + apply empty_trajectories_lookup. cbn. right. left.
Defined.

(** The recording loop stops at the first body without a history. *)
Lemma record_positions_missing (l : list CelestialBody.t) :
  forall self,
    (exists b, b ∈ l /\ trajectories self !! name b = None) ->
    exists b s',
      for_in (fun body self =>
          match trajectories self !! name body with
          | None => Raised (KeyError (name body)) self
          | Some history =>
              Normal (set_trajectories
                        (<[name body := history ++ [position body]]>
                           (trajectories self)) self)
          end) l self
      = Raised (KeyError (name b)) s' /\
      b ∈ l /\ trajectories self !! name b = None /\
      physics_engine s' = physics_engine self /\
      OrbitalSimulator.dt s' = OrbitalSimulator.dt self /\
      time s' = time self.
Proof.
  induction l as [|x l IH]; intros self (b & Hb & Hnone); [inversion Hb|].
  cbn [for_in]. destruct (trajectories self !! name x) as [h|] eqn:Hx.
  - rewrite and_then_Normal.
    assert (Hneq : name x <> name b) by congruence.
    apply elem_of_cons in Hb as [->|Hb]; [congruence|].
    destruct (IH (set_trajectories
                    (<[name x := h ++ [position x]]> (trajectories self)) self))
      as (b' & s' & Hloop & Hb' & Hnone' & Hpe & Hdt & Htime).
    { exists b. split; [exact Hb|]. cbn. now rewrite lookup_insert_ne. }
    exists b', s'. split; [exact Hloop|]. split; [now right|].
    cbn in Hnone'. split; [|now repeat split].
    destruct (decide (name x = name b')) as [E|E].
    + rewrite E, lookup_insert_eq in Hnone'. discriminate.
    + now rewrite lookup_insert_ne in Hnone'.
  - exists x, self. cbn. repeat split; [left | exact Hx].
Qed.

(** X15.  A body without a history.  When the name of some body is not a
    key of [trajectories], [step()] raises [KeyError] with the name of such
    a body, one that had no history before the call; the engine, with its
    bodies and its clock, the time of the simulator and [dt] are as they
    were. *)
Theorem X15_step_raises_key_error (self : OrbitalSimulator.t) :
  (exists b, b ∈ PhysicsEngine.bodies (physics_engine self) /\
             trajectories self !! name b = None) ->
  exists b self',
    step self = Raised (KeyError (name b)) self' /\
    b ∈ PhysicsEngine.bodies (physics_engine self) /\
    trajectories self !! name b = None /\
    physics_engine self' = physics_engine self /\
    OrbitalSimulator.dt self' = OrbitalSimulator.dt self /\
    time self' = time self.
Proof.
  intros Hmissing.
  destruct (record_positions_missing _ self Hmissing)
    as (b & s' & Hloop & Hrest).
  exists b, s'. split; [|exact Hrest].
  unfold step. now rewrite Hloop.
Qed.

Lemma X15_witness :
  exists b self',
    step (mk sun_earth 3600 0 ∅) = Raised (KeyError (name b)) self' /\
    physics_engine self' = sun_earth /\ time self' = 0.
Proof.
  destruct (X15_step_raises_key_error (mk sun_earth 3600 0 ∅))
    as (b & self' & Hstep & _ & _ & Hpe & _ & Htime).
  - exists sun. split; [cbn; left | reflexivity].
  - exists b, self'. split; [exact Hstep | split; assumption].
Defined.

End StepExtras.

Section RunExtras.
Import CelestialBody OrbitalSimulator.

Lemma X13_witness :
  exists self',
    update_n 24 3600 sun_earth = Normal self' /\
    forall b, b ∈ PhysicsEngine.bodies self' -> planar b.
Proof.
  apply (X13_planar_system_stays_planar sun_earth 3600 24).
  - apply (bool_decide_unpack _). vm_compute. reflexivity.
  - intros b Hb. cbn in Hb.
    apply elem_of_cons in Hb as [->|Hb];
      [|apply elem_of_cons in Hb as [->|Hb]; [|inversion Hb]];
      cbn; unfold SUN_MASS, EARTH_MASS; lra.
  - intros b Hb. cbn in Hb.
    apply elem_of_cons in Hb as [->|Hb];
      [|apply elem_of_cons in Hb as [->|Hb]; [|inversion Hb]];
      split; reflexivity.
Defined.

(** X16.  Two bodies under one name share one history.  With two distinct
    bodies of the same name and of different masses (so that their
    comparison does not raise), a step returns normally and appends two
    positions to the history of that name: the one of the first body, then
    the one of the second. *)
Theorem X16_shared_name_shares_history (a b : CelestialBody.t) (t0 dt0 t1 : R)
    (d : gmap string (list np.ndarray)) (history : list np.ndarray) :
  oid a <> oid b -> name a = name b -> mass a <> mass b ->
  d !! name a = Some history ->
  exists self',
    step (mk (PhysicsEngine.mk [a; b] t0) dt0 t1 d) = Normal self' /\
    trajectories self' !! name a
    = Some (history ++ [position a; position b]).
Proof.
  intros Hoid Hname Hmass Hd. unfold step.
  cbn [physics_engine PhysicsEngine.bodies for_in trajectories].
  rewrite Hd, and_then_Normal. cbn [trajectories set_trajectories].
  rewrite <- Hname, lookup_insert_eq, !and_then_Normal.
  cbn [physics_engine set_trajectories OrbitalSimulator.dt].
  rewrite update_positions_velocities_spec. cbn [PhysicsEngine.bodies].
  assert (clashing [a; b] = false) as ->.
  { unfold clashing. cbn [existsb].
    assert (Hab : clash a b = false).
    { destruct (clash a b) eqn:E; [|reflexivity].
      apply clash_iff in E as (_ & _ & E). congruence. }
    unfold clash at 1 4. rewrite !ne_same_object by reflexivity.
    now rewrite (clash_sym b a), Hab. }
  rewrite !and_then_Normal. eexists. split; [reflexivity|].
  cbn. rewrite lookup_insert_eq. now rewrite <- app_assoc.
Qed.

Lemma X16_witness :
  exists self',
    step (mk (PhysicsEngine.mk [rock_a; rock_heavy] 0) 3600 0
             (<["A" := []]> ∅))
    = Normal self' /\
    trajectories self' !! name rock_a
    = Some ([] ++ [position rock_a; position rock_heavy]).
Proof.
  apply (X16_shared_name_shares_history rock_a rock_heavy 0 3600 0
           (<["A" := []]> ∅) []).
  - cbn. lia.
  - reflexivity.
  - cbn. lra.
  - apply lookup_insert_eq.
Defined.

Lemma int_floor (q : R) (k : Z) :
  (0 <= k)%Z -> IZR k <= q < IZR k + 1 -> int q = k.
Proof.
  intros Hk [Hlo Hhi]. unfold int.
  assert (0 <= IZR k) by now apply IZR_le.
  destruct (Rle_dec 0 q) as [_|Hneg]; [|lra].
  symmetry. apply Int_part_spec. lra.
Qed.

Lemma int_below_one (q : R) : q < 1 -> (int q <= 0)%Z.
Proof.
  intros Hq. unfold int. destruct (Rle_dec 0 q) as [Hpos|Hneg].
  - rewrite <- (Int_part_spec q 0); [lia|]. cbn. lra.
  - destruct (base_Int_part (- q)) as [_ Hlow].
    assert (Hgt : IZR (-1) < IZR (Int_part (- q))) by (cbn; lra).
    apply lt_IZR in Hgt. lia.
Qed.

(** When [total_steps = int(duration / self.dt)] is 10 or more, the
    progress test never raises and the loop is [total_steps] steps. *)
Lemma run_simulation_total_steps (self : OrbitalSimulator.t)
    (duration : R) (total_steps : Z) :
  OrbitalSimulator.dt self <> 0 ->
  int (duration / OrbitalSimulator.dt self) = total_steps ->
  (10 <= total_steps)%Z ->
  run_simulation self duration = steps (Z.to_nat total_steps) self.
Proof.
  intros Hdt Hint Hk. unfold run_simulation, py_truediv.
  destruct (Req_dec_T _ 0); [contradiction|].
  cbv zeta. rewrite Hint.
  rewrite run_loop_steps, length_seqZ; [reflexivity|].
  pose proof (Z.div_le_mono 10 total_steps 10).
  change (10 / 10)%Z with 1%Z in H. lia.
Qed.

(** X17.  A run is a sequence of steps.  Let [total_steps] be the number
    that [run_simulation] computes in its first line,
    [int(duration / self.dt)], whatever the quotient is.  When [dt] is not
    zero and [total_steps >= 10], [run_simulation(duration)] does what
    [total_steps] successive calls of [step()] do, on any simulator: same
    final state, same exception if a step raises; the progress test does
    not raise. *)
Theorem X17_run_is_total_steps_steps (self : OrbitalSimulator.t)
    (duration : R) (total_steps : Z) :
  OrbitalSimulator.dt self <> 0 ->
  int (duration / OrbitalSimulator.dt self) = total_steps ->
  (10 <= total_steps)%Z ->
  run_simulation self duration = steps (Z.to_nat total_steps) self.
Proof. apply run_simulation_total_steps. Qed.

Lemma X17_witness :
  run_simulation (__init__ [sun; earth] 3600) 40000
  = steps (Z.to_nat 11) (__init__ [sun; earth] 3600).
Proof.
  apply (X17_run_is_total_steps_steps (__init__ [sun; earth] 3600) 40000 11).
  - cbn. lra.
  - change (OrbitalSimulator.dt (__init__ [sun; earth] 3600)) with 3600.
    apply int_floor; [lia | lra].
  - lia.
Defined.

(** X18.  Runs that do nothing.  With [dt = 0], [run_simulation] raises
    [ZeroDivisionError] before it touches the simulator.  With [dt] not zero
    and [duration / dt < 1] (a duration shorter than one step, or negative)
    it returns normally without a step: the simulator is as it was. *)
Theorem X18_runs_without_a_step (self : OrbitalSimulator.t) (duration : R) :
  (OrbitalSimulator.dt self = 0 ->
   run_simulation self duration = Raised ZeroDivisionError self) /\
  (OrbitalSimulator.dt self <> 0 -> duration / OrbitalSimulator.dt self < 1 ->
   run_simulation self duration = Normal self).
Proof.
  unfold run_simulation, py_truediv. split.
  - intros ->. destruct (Req_dec_T 0 0); [reflexivity | contradiction].
  - intros Hdt Hq. destruct (Req_dec_T _ 0); [contradiction|].
    rewrite seqZ_nil; [reflexivity|]. now apply int_below_one.
Qed.

Lemma X18_witness :
  run_simulation (__init__ [sun; earth] 3600) 1800
  = Normal (__init__ [sun; earth] 3600).
Proof.
  destruct (X18_runs_without_a_step (__init__ [sun; earth] 3600) 1800)
    as [_ H].
  apply H; cbn; lra.
Defined.

End RunExtras.

(** ** Scenes *)

Section Scenes.
Import CelestialBody OrbitalSimulator.

Lemma step_histories names n self :
  NoDup names -> histories names n self ->
  exists self', step self = Normal self' /\ histories names (S n) self'.
Proof.
  intros Hnd (Hnames & Hhist).
  set (l := PhysicsEngine.bodies (physics_engine self)) in *.
  destruct (record_positions_loop l self) as (d & Hloop & Hin & _).
  { now rewrite Hnames. }
  { intros b Hb. destruct (Hhist (name b)) as (h & -> & _); [|eauto].
    rewrite <- Hnames. now apply list_elem_of_fmap_2. }
  unfold step. fold l. rewrite Hloop, and_then_Normal.
  cbn [physics_engine set_trajectories OrbitalSimulator.dt].
  rewrite update_positions_velocities_spec. fold l.
  rewrite NoDup_names_clashing by now rewrite Hnames.
  rewrite !and_then_Normal. eexists. split; [reflexivity|].
  unfold histories, set_time, set_physics_engine, set_trajectories.
  cbn [physics_engine trajectories PhysicsEngine.bodies].
  rewrite names_corrected. split; [exact Hnames|].
  intros k Hk. destruct (Hhist k Hk) as (h & Hh & Hlen).
  rewrite <- Hnames in Hk. apply list_elem_of_fmap in Hk as (b & -> & Hb).
  exists (h ++ [position b]). split; [now apply Hin|].
  rewrite length_app. cbn. lia.
Qed.

Lemma steps_histories names m n self :
  NoDup names -> histories names m self ->
  exists self', steps n self = Normal self' /\ histories names (m + n) self'.
Proof.
  intros Hnd. revert m self. induction n as [|n IH]; intros m self Hinv.
  - exists self. rewrite Nat.add_0_r. now split.
  - destruct (step_histories names m self Hnd Hinv) as (s1 & Hs1 & Hinv1).
    destruct (IH (S m) s1 Hinv1) as (s' & Hs' & Hinv').
    exists s'. cbn [steps]. rewrite Hs1, and_then_Normal.
    split; [exact Hs'|]. now rewrite Nat.add_succ_r.
Qed.

(** [n] steps that return advance both clocks by [n * dt]. *)
Lemma steps_time n :
  forall self self',
    steps n self = Normal self' ->
    OrbitalSimulator.dt self' = OrbitalSimulator.dt self /\
    time self' = time self + INR n * OrbitalSimulator.dt self /\
    PhysicsEngine.time (physics_engine self')
    = PhysicsEngine.time (physics_engine self) + INR n * OrbitalSimulator.dt self.
Proof.
  induction n as [|n IH]; intros self self' H.
  - cbn in H. injection H as <-. cbn. repeat split; lra.
  - cbn [steps] in H. pose proof (step_clocks self) as Hstep.
    destruct (step self) as [s1|e s1]; [|discriminate H].
    rewrite and_then_Normal in H. destruct Hstep as (Hdt & Ht & Hc).
    destruct (IH s1 self' H) as (Hdt' & Ht' & Hc').
    rewrite Hdt', Ht', Hc', Hdt, Ht, Hc, S_INR. repeat split; lra.
Qed.

(** After [install], every name has an empty history. *)
Lemma install_histories bodies self :
  histories (name <$> bodies) 0 (install bodies self).
Proof.
  split; [reflexivity|]. intros k Hk. exists [].
  split; [now apply empty_trajectories_lookup | reflexivity].
Qed.

Lemma empty_trajectories_other (l : list CelestialBody.t) (k : string) :
  k ∉ name <$> l -> empty_trajectories l !! k = None.
Proof.
  unfold empty_trajectories.
  assert (H : forall d : gmap string (list np.ndarray),
            k ∉ name <$> l -> d !! k = None ->
            foldl (fun d body => <[name body := []]> d) d l !! k = None).
  { induction l as [|x l IH]; intros d Hk Hd; [exact Hd|].
    rewrite fmap_cons in Hk. apply not_elem_of_cons in Hk as [Hx Hk].
    cbn [foldl]. apply IH; [exact Hk|]. now rewrite lookup_insert_ne. }
  intros Hk. apply H; [exact Hk | apply lookup_empty].
Qed.

(** X19.  [create_solar_system] on any simulator returns normally.  It
    replaces the bodies by three new ones, Sun, Earth and Moon, each of
    positive mass, tagged as planar, with [z = 0] and [vz = 0]; the
    histories are exactly those of these three names, all empty; [dt] and
    the two clocks are kept, not set back to 0. *)
Theorem X19_create_solar_system (next_id : nat) (self : OrbitalSimulator.t) :
  exists scene,
    create_solar_system next_id self = Normal scene /\
    name <$> PhysicsEngine.bodies (physics_engine scene)
    = ["Sun"; "Earth"; "Moon"] /\
    oid <$> PhysicsEngine.bodies (physics_engine scene)
    = [next_id; next_id + 1; next_id + 2]%nat /\
    (forall b, b ∈ PhysicsEngine.bodies (physics_engine scene) ->
       0 < mass b /\ is_3d b = false /\ planar b) /\
    (forall k, trajectories scene !! k
               = if decide (k ∈ ["Sun"; "Earth"; "Moon"]) then Some [] else None) /\
    OrbitalSimulator.dt scene = OrbitalSimulator.dt self /\
    time scene = time self /\
    PhysicsEngine.time (physics_engine scene)
    = PhysicsEngine.time (physics_engine self).
Proof.
  eexists. split; [reflexivity|]. cbn [install physics_engine PhysicsEngine.bodies
    PhysicsEngine.set_bodies clear OrbitalSimulator.dt time trajectories
    PhysicsEngine.time].
  repeat split.
  - apply elem_of_cons in H as [->|H];
      [|apply elem_of_cons in H as [->|H];
        [|apply elem_of_cons in H as [->|H]; [|inversion H]]];
      cbn [mass]; unfold SUN_MASS, EARTH_MASS; lra.
  - apply elem_of_cons in H as [->|H];
      [|apply elem_of_cons in H as [->|H];
        [|apply elem_of_cons in H as [->|H]; [|inversion H]]]; reflexivity.
  - apply elem_of_cons in H as [->|H];
      [|apply elem_of_cons in H as [->|H];
        [|apply elem_of_cons in H as [->|H]; [|inversion H]]]; reflexivity.
  - apply elem_of_cons in H as [->|H];
      [|apply elem_of_cons in H as [->|H];
        [|apply elem_of_cons in H as [->|H]; [|inversion H]]]; reflexivity.
  - intros k. destruct (decide _) as [Hk|Hk].
    + now apply empty_trajectories_lookup.
    + now apply empty_trajectories_other.
Qed.

(** X20.  A run after [create_3d_solar_system].  On any simulator with
    [dt] not zero, [create_3d_solar_system] followed by a run whose number
    of steps [total_steps = int(duration / self.dt)] is 10 or more returns
    normally, and each of the four bodies Sun, Earth, Moon and Mars has a
    history of [total_steps] positions.  This is the run of [main()]: a new
    simulator with [dt = 3600] and 180 days, 4320 steps. *)
Theorem X20_run_after_create_3d_solar_system (next_id : nat)
    (self : OrbitalSimulator.t) (duration : R) (total_steps : Z) :
  OrbitalSimulator.dt self <> 0 ->
  int (duration / OrbitalSimulator.dt self) = total_steps ->
  (10 <= total_steps)%Z ->
  exists scene final,
    create_3d_solar_system next_id self = Normal scene /\
    run_simulation scene duration = Normal final /\
    histories ["Sun"; "Earth"; "Moon"; "Mars"] (Z.to_nat total_steps) final.
Proof.
  intros Hdt Hint Hk.
  assert (Hscene : exists bodies,
            create_3d_solar_system next_id self
            = Normal (install bodies (clear self))
            /\ name <$> bodies = ["Sun"; "Earth"; "Moon"; "Mars"]).
  { eexists. split; reflexivity. }
  destruct Hscene as (bodies & Hcreate & Hnames).
  set (scene := install bodies (clear self)) in *.
  assert (Hnd : NoDup ["Sun"; "Earth"; "Moon"; "Mars"])
    by (apply (bool_decide_unpack _); vm_compute; reflexivity).
  pose proof (install_histories bodies (clear self)) as Hh.
  rewrite Hnames in Hh. fold scene in Hh.
  destruct (steps_histories _ 0 (Z.to_nat total_steps) scene Hnd Hh)
    as (final & Hsteps & Hfinal).
  exists scene, final. split; [exact Hcreate|]. split; [|exact Hfinal].
  rewrite <- Hsteps. now apply run_simulation_total_steps.
Qed.

Lemma X20_witness :
  exists scene final,
    create_3d_solar_system 0 (__init__ [] 3600) = Normal scene /\
    run_simulation scene (180 * 24 * 3600) = Normal final /\
    histories ["Sun"; "Earth"; "Moon"; "Mars"] (Z.to_nat 4320) final.
Proof.
  apply (X20_run_after_create_3d_solar_system 0 (__init__ [] 3600)
           (180 * 24 * 3600) 4320).
  - cbn. lra.
  - change (OrbitalSimulator.dt (__init__ [] 3600)) with 3600.
    apply int_floor; [lia | lra].
  - lia.
Defined.

End Scenes.

(** ** Saving and loading *)

Section SaveLoad.
Import OrbitalMechanicsGUI CelestialBody OrbitalSimulator.
Open Scope np_scope.

Lemma recreate_bodies_saved (l : list CelestialBody.t) :
  forall next_id,
    recreate_bodies next_id
      ((fun body =>
          mk_body_data (name body) (mass body) (tolist (position body))
            (tolist (velocity body)) (CelestialBody.radius body)
            (CelestialBody.color body) (CelestialBody.is_3d body)) <$> l)
    = Ok (reload_all next_id l).
Proof.
  induction l as [|b l IH]; intros next_id; [reflexivity|].
  rewrite fmap_cons. cbn [recreate_bodies]. rewrite IH.
  unfold reload_all. rewrite imap_cons.
  destruct b as [? ? ? [? ? ?] [? ? ?] ? ? ?]. cbn.
  unfold reloaded. cbn. rewrite Nat.add_0_r. do 2 f_equal.
  apply imap_ext. intros i x _. cbn. f_equal. lia.
Qed.

Lemma names_reload_all next_id l : name <$> reload_all next_id l = name <$> l.
Proof.
  unfold reload_all. rewrite fmap_imap, <- (imap_const name l).
  apply imap_ext. reflexivity.
Qed.

Lemma reload_all_lookup next_id l i b :
  l !! i = Some b -> reload_all next_id l !! i = Some (reloaded (next_id + i) b).
Proof. intros H. unfold reload_all. now rewrite list_lookup_imap, H. Qed.

Lemma pair_force_reloaded next_id l i j b o :
  NoDup (name <$> l) -> one_name_per_object l ->
  l !! i = Some b -> l !! j = Some o ->
  pair_force (reloaded (next_id + i) b) (reloaded (next_id + j) o)
  = pair_force b o.
Proof.
  intros Hnd Hone Hi Hj. unfold pair_force.
  destruct (decide (i = j)) as [->|Hij].
  - assert (b = o) as -> by congruence.
    now rewrite !ne_same_object.
  - assert (Hname : name o <> name b).
    { intros E. apply Hij.
      apply (NoDup_lookup (name <$> l) i j (name b) Hnd);
        rewrite list_lookup_fmap; [rewrite Hi | rewrite Hj]; cbn; congruence. }
    assert (Hoid : CelestialBody.oid o <> CelestialBody.oid b).
    { intros E. apply Hname. apply Hone; [| |exact E];
        eapply list_elem_of_lookup_2; eassumption. }
    unfold ne. cbn [CelestialBody.oid CelestialBody.name reloaded].
    destruct (decide (next_id + j = next_id + i)%nat) as [E|_]; [lia|].
    destruct (decide (CelestialBody.oid o = CelestialBody.oid b)) as [E|_];
      [contradiction|].
    destruct (String.eqb_spec (name o) (name b)) as [E|_]; [contradiction|].
    reflexivity.
Qed.

Lemma accel_reloaded next_id l i b :
  NoDup (name <$> l) -> one_name_per_object l -> l !! i = Some b ->
  accel (reload_all next_id l) (reloaded (next_id + i) b) = accel l b.
Proof.
  intros Hnd Hone Hi. unfold accel, net_force, reload_all.
  rewrite fmap_imap, <- (imap_const (pair_force b) l).
  rewrite (imap_ext _ (fun _ => pair_force b) l); [reflexivity|].
  intros j o Hj. cbn. now apply (pair_force_reloaded next_id l).
Qed.

Lemma kick_reloaded next_id l dt i b :
  NoDup (name <$> l) -> one_name_per_object l -> l !! i = Some b ->
  kick (reload_all next_id l) dt (reloaded (next_id + i) b)
  = reloaded (next_id + i) (kick l dt b).
Proof.
  intros Hnd Hone Hi. unfold kick. now rewrite accel_reloaded.
Qed.

Lemma predicted_reloaded next_id l dt :
  NoDup (name <$> l) -> one_name_per_object l ->
  predicted (reload_all next_id l) dt = reload_all next_id (predicted l dt).
Proof.
  intros Hnd Hone. unfold predicted.
  unfold reload_all at 2 3. rewrite fmap_imap, imap_fmap.
  apply imap_ext. intros i b Hi. cbn.
  now rewrite kick_reloaded.
Qed.

Lemma one_name_per_object_fmap (f : CelestialBody.t -> CelestialBody.t) l :
  (forall b, CelestialBody.oid (f b) = CelestialBody.oid b /\ name (f b) = name b) ->
  one_name_per_object l -> one_name_per_object (f <$> l).
Proof.
  intros Hf Hone a b Ha Hb.
  apply list_elem_of_fmap in Ha as (a0 & -> & Ha0), Hb as (b0 & -> & Hb0).
  destruct (Hf a0) as [-> ->], (Hf b0) as [-> ->]. now apply Hone.
Qed.

Lemma corrected_reloaded next_id l dt i b :
  NoDup (name <$> l) -> one_name_per_object l -> l !! i = Some b ->
  corrected (reload_all next_id l) dt (reloaded (next_id + i) b)
  = reloaded (next_id + i) (corrected l dt b).
Proof.
  intros Hnd Hone Hi. unfold corrected.
  rewrite predicted_reloaded, kick_reloaded, accel_reloaded by assumption.
  change (drift dt (reloaded (next_id + i) (kick l dt b)))
    with (reloaded (next_id + i) (drift dt (kick l dt b))).
  rewrite (accel_reloaded next_id (predicted l dt) i).
  - reflexivity.
  - unfold predicted. now rewrite <- list_fmap_compose.
  - apply one_name_per_object_fmap; [|exact Hone]. intros x. now split.
  - unfold predicted. now rewrite list_lookup_fmap, Hi.
Qed.

Lemma update_reloaded next_id l dt :
  NoDup (name <$> l) -> one_name_per_object l ->
  corrected (reload_all next_id l) dt <$> reload_all next_id l
  = reload_all next_id (corrected l dt <$> l).
Proof.
  intros Hnd Hone.
  unfold reload_all at 2 3. rewrite fmap_imap, imap_fmap.
  apply imap_ext. intros i b Hi. cbn.
  now rewrite corrected_reloaded.
Qed.

(** a step on bodies with distinct names, with the bodies it leaves *)
Lemma step_histories_bodies names n self :
  NoDup names -> histories names n self ->
  exists self',
    step self = Normal self' /\ histories names (S n) self' /\
    PhysicsEngine.bodies (physics_engine self')
    = corrected (PhysicsEngine.bodies (physics_engine self))
        (OrbitalSimulator.dt self)
      <$> PhysicsEngine.bodies (physics_engine self) /\
    OrbitalSimulator.dt self' = OrbitalSimulator.dt self.
Proof.
  intros Hnd (Hnames & Hhist).
  set (l := PhysicsEngine.bodies (physics_engine self)) in *.
  destruct (record_positions_loop l self) as (d & Hloop & Hin & _).
  { now rewrite Hnames. }
  { intros b Hb. destruct (Hhist (name b)) as (h & -> & _); [|eauto].
    rewrite <- Hnames. now apply list_elem_of_fmap_2. }
  unfold step. fold l. rewrite Hloop, and_then_Normal.
  cbn [physics_engine set_trajectories OrbitalSimulator.dt].
  rewrite update_positions_velocities_spec. fold l.
  rewrite NoDup_names_clashing by now rewrite Hnames.
  rewrite !and_then_Normal. eexists. split; [reflexivity|].
  unfold histories, set_time, set_physics_engine, set_trajectories.
  cbn [physics_engine trajectories PhysicsEngine.bodies OrbitalSimulator.dt].
  rewrite names_corrected. split; [|now split]. split; [exact Hnames|].
  intros k Hk. destruct (Hhist k Hk) as (h & Hh & Hlen).
  rewrite <- Hnames in Hk. apply list_elem_of_fmap in Hk as (b & -> & Hb).
  exists (h ++ [position b]). split; [now apply Hin|].
  rewrite length_app. cbn. lia.
Qed.

Lemma steps_reloaded names next_id n :
  NoDup names ->
  forall m m' s s',
    histories names m s -> histories names m' s' ->
    one_name_per_object (PhysicsEngine.bodies (physics_engine s)) ->
    PhysicsEngine.bodies (physics_engine s')
    = reload_all next_id (PhysicsEngine.bodies (physics_engine s)) ->
    OrbitalSimulator.dt s' = OrbitalSimulator.dt s ->
    exists final final',
      steps n s = Normal final /\ steps n s' = Normal final' /\
      PhysicsEngine.bodies (physics_engine final')
      = reload_all next_id (PhysicsEngine.bodies (physics_engine final)).
Proof.
  intros Hnd. induction n as [|n IH]; intros m m' s s' Hs Hs' Hone Hb Hdt.
  - exists s, s'. now repeat split.
  - destruct (step_histories_bodies names m s Hnd Hs) as (s1 & Hstep & Hh1 & Hb1 & Hdt1).
    destruct (step_histories_bodies names m' s' Hnd Hs')
      as (s1' & Hstep' & Hh1' & Hb1' & Hdt1').
    destruct (IH (S m) (S m') s1 s1' Hh1 Hh1') as (f & f' & Hf & Hf' & Hff).
    + rewrite Hb1. apply one_name_per_object_fmap; [|exact Hone].
      intros x. now split.
    + rewrite Hb1', Hb1, Hb, Hdt. apply update_reloaded; [|exact Hone].
      destruct Hs as [-> _]. exact Hnd.
    + congruence.
    + exists f, f'. cbn [steps]. rewrite Hstep, Hstep', !and_then_Normal.
      now repeat split.
Qed.

Lemma load_saved next_id filename files sim cur :
  filename <> "" ->
  load_simulation next_id filename
    (save_simulation (Some sim) filename files) cur
  = Some (set_time (time sim)
            (__init__ (reload_all next_id (PhysicsEngine.bodies (physics_engine sim)))
               (OrbitalSimulator.dt sim))).
Proof.
  intros Hf. unfold load_simulation, save_simulation.
  destruct (decide (filename = "")) as [E|_]; [contradiction|].
  rewrite lookup_insert_eq. unfold simulation_document.
  cbn [OrbitalMechanicsGUI.bodies OrbitalMechanicsGUI.time OrbitalMechanicsGUI.dt].
  now rewrite recreate_bodies_saved.
Qed.

(** X21.  Saving and loading.  [load_simulation] on the file that
    [save_simulation] has just written replaces the simulator of the GUI,
    whatever it was, by a new one.  Its bodies are new objects with the
    saved names, masses, positions, velocities, radii and colours, in the
    saved order; its time step and its simulation time are the saved ones.
    Three things are not restored: every body is tagged [is_3d = True], also
    one that was created from two coordinates; the recorded trajectories are
    empty; and the clock of the physics engine restarts at 0, so that it
    differs from the simulation time when the saved time is not 0. *)
Theorem X21_save_then_load (next_id : nat) (filename : string)
    (files : gmap string simulation_data)
    (sim : OrbitalSimulator.t) (cur : option OrbitalSimulator.t) :
  filename <> "" ->
  exists loaded,
    load_simulation next_id filename
      (save_simulation (Some sim) filename files) cur = Some loaded /\
    PhysicsEngine.bodies (physics_engine loaded)
    = reload_all next_id (PhysicsEngine.bodies (physics_engine sim)) /\
    OrbitalSimulator.dt loaded = OrbitalSimulator.dt sim /\
    OrbitalSimulator.time loaded = OrbitalSimulator.time sim /\
    PhysicsEngine.time (physics_engine loaded) = 0 /\
    (forall i b, PhysicsEngine.bodies (physics_engine loaded) !! i = Some b ->
       CelestialBody.oid b = (next_id + i)%nat /\
       CelestialBody.is_3d b = true /\
       exists b0, PhysicsEngine.bodies (physics_engine sim) !! i = Some b0 /\
         name b = name b0 /\ mass b = mass b0 /\
         position b = position b0 /\ velocity b = velocity b0 /\
         CelestialBody.radius b = CelestialBody.radius b0 /\
         CelestialBody.color b = CelestialBody.color b0) /\
    (forall k, trajectories loaded !! k
               = if decide (k ∈ name <$> PhysicsEngine.bodies (physics_engine sim))
                 then Some [] else None).
Proof.
  intros Hf. eexists. split; [now apply load_saved|].
  cbn [set_time __init__ physics_engine PhysicsEngine.__init__
       PhysicsEngine.bodies PhysicsEngine.time OrbitalSimulator.dt
       OrbitalSimulator.time trajectories].
  repeat split.
  - unfold reload_all in H. rewrite list_lookup_imap in H.
    destruct (PhysicsEngine.bodies (physics_engine sim) !! i); [|discriminate].
    cbn in H. now injection H as <-.
  - unfold reload_all in H. rewrite list_lookup_imap in H.
    destruct (PhysicsEngine.bodies (physics_engine sim) !! i); [|discriminate].
    cbn in H. now injection H as <-.
  - unfold reload_all in H. rewrite list_lookup_imap in H.
    destruct (PhysicsEngine.bodies (physics_engine sim) !! i) as [b0|]; [|discriminate].
    cbn in H. injection H as <-. exists b0. now repeat split.
  - intros k. destruct (decide _) as [Hk|Hk].
    + apply empty_trajectories_lookup. now rewrite names_reload_all.
    + apply empty_trajectories_other. now rewrite names_reload_all.
Qed.

Lemma X21_witness :
  exists loaded,
    load_simulation 7 "state.json"
      (save_simulation
         (Some (set_time 3600 (__init__ [sun; earth] 3600))) "state.json" ∅)
      None = Some loaded /\
    OrbitalSimulator.time loaded = 3600 /\
    PhysicsEngine.time (physics_engine loaded) = 0.
Proof.
  destruct (X21_save_then_load 7 "state.json" ∅
              (set_time 3600 (__init__ [sun; earth] 3600)) None)
    as (loaded & Hload & _ & _ & Ht & Hc & _).
  - discriminate.
  - exists loaded. repeat split; assumption.
Defined.

(** X22.  A reloaded simulation moves like the original.  Take a simulator
    whose bodies have pairwise distinct names, each with a recorded history,
    and in whose list no object appears under two names.  Save it and load
    the file: [n] steps of the original and [n] steps of the loaded simulator
    both return normally, and they leave the same bodies (name, mass,
    position, velocity, radius and colour; the loaded ones are the new
    objects, tagged 3D) and the same simulation time. *)
Theorem X22_reloaded_simulation_moves_alike (next_id : nat) (filename : string)
    (files : gmap string simulation_data)
    (sim : OrbitalSimulator.t) (cur : option OrbitalSimulator.t)
    (names : list string) (m n : nat) :
  filename <> "" -> NoDup names -> histories names m sim ->
  one_name_per_object (PhysicsEngine.bodies (physics_engine sim)) ->
  exists loaded final final',
    load_simulation next_id filename
      (save_simulation (Some sim) filename files) cur = Some loaded /\
    steps n sim = Normal final /\
    steps n loaded = Normal final' /\
    PhysicsEngine.bodies (physics_engine final')
    = reload_all next_id (PhysicsEngine.bodies (physics_engine final)) /\
    OrbitalSimulator.time final' = OrbitalSimulator.time final.
Proof.
  intros Hf Hnd Hh Hone. eexists.
  assert (Hh' : histories names 0
                  (set_time (time sim)
                     (__init__ (reload_all next_id
                                  (PhysicsEngine.bodies (physics_engine sim)))
                        (OrbitalSimulator.dt sim)))).
  { destruct Hh as [Hnames _]. split.
    - cbn. now rewrite names_reload_all.
    - intros k Hk. exists []. split; [|reflexivity]. cbn.
      apply empty_trajectories_lookup. now rewrite names_reload_all, Hnames. }
  destruct (steps_reloaded names next_id n Hnd m 0%nat sim _ Hh Hh' Hone
              eq_refl eq_refl) as (final & final' & Hs & Hs' & Hb).
  exists final, final'. split; [now apply load_saved|].
  repeat split; try assumption.
  destruct (steps_time _ _ _ Hs) as (_ & -> & _).
  destruct (steps_time _ _ _ Hs') as (_ & -> & _). reflexivity.
Qed.

Lemma X22_witness :
  exists loaded final final',
    load_simulation 7 "state.json"
      (save_simulation (Some (__init__ [sun; earth] 3600)) "state.json" ∅)
      None = Some loaded /\
    steps 24 (__init__ [sun; earth] 3600) = Normal final /\
    steps 24 loaded = Normal final' /\
    PhysicsEngine.bodies (physics_engine final')
    = reload_all 7 (PhysicsEngine.bodies (physics_engine final)) /\
    OrbitalSimulator.time final' = OrbitalSimulator.time final.
Proof.
  apply (X22_reloaded_simulation_moves_alike 7 "state.json" ∅
           (__init__ [sun; earth] 3600) None ["Sun"; "Earth"] 0 24).
  - discriminate.
  - apply (bool_decide_unpack _). vm_compute. reflexivity.
  - split; [reflexivity|]. intros k Hk. exists [].
    split; [|reflexivity].
    apply (empty_trajectories_lookup [sun; earth]). exact Hk.
  - intros a b Ha Hb.
    apply elem_of_cons in Ha as [->|Ha]; [|apply list_elem_of_singleton in Ha as ->];
    (apply elem_of_cons in Hb as [->|Hb]; [|apply list_elem_of_singleton in Hb as ->]);
    cbn; intros E; (reflexivity || discriminate E).
Defined.

Lemma recreate_bodies_malformed (l : list body_data) (d : body_data) :
  d ∈ l ->
  (length (OrbitalMechanicsGUI.position d) <> 2%nat /\
   length (OrbitalMechanicsGUI.position d) <> 3%nat) \/
  (length (OrbitalMechanicsGUI.velocity d) <> 2%nat /\
   length (OrbitalMechanicsGUI.velocity d) <> 3%nat) ->
  forall next_id, exists e, recreate_bodies next_id l = Raise e.
Proof.
  intros Hd Hbad. induction l as [|x l IH]; intros next_id; [inversion Hd|].
  cbn [recreate_bodies].
  apply elem_of_cons in Hd as [<-|Hd].
  - unfold __post_init__.
    destruct (OrbitalMechanicsGUI.position d) as [|x [|y [|z [|w p]]]];
      cbn; eauto; try (destruct Hbad as [[H2 H3]|Hv]; [cbn in *; lia|]);
      destruct (OrbitalMechanicsGUI.velocity d) as [|vx [|vy [|vz [|vw v]]]];
      cbn; eauto; destruct Hv as [H2 H3]; cbn in *; lia.
  - destruct (__post_init__ _ _ _ _ _ _ _ _) as [b|e]; cbn; [|eauto].
    destruct (IH Hd (S next_id)) as [e ->]. cbn. eauto.
Qed.

(** X23.  A load that fails changes nothing.  When the dialog is cancelled
    (empty file name), when there is no such file, or when some body of the
    document has a position or a velocity that has neither two nor three
    coordinates, [load_simulation] leaves the simulator of the GUI as it
    was: no simulator is built from the bodies read before the bad one. *)
Theorem X23_failed_load_keeps_simulator (next_id : nat) (filename : string)
    (files : gmap string simulation_data) (cur : option OrbitalSimulator.t) :
  filename = "" \/
  files !! filename = None \/
  (exists data d,
     files !! filename = Some data /\ d ∈ OrbitalMechanicsGUI.bodies data /\
     ((length (OrbitalMechanicsGUI.position d) <> 2%nat /\
       length (OrbitalMechanicsGUI.position d) <> 3%nat) \/
      (length (OrbitalMechanicsGUI.velocity d) <> 2%nat /\
       length (OrbitalMechanicsGUI.velocity d) <> 3%nat))) ->
  load_simulation next_id filename files cur = cur.
Proof.
  intros H. unfold load_simulation.
  destruct (decide (filename = "")) as [|Hf]; [reflexivity|].
  destruct H as [H|[H|(data & d & Hdata & Hd & Hbad)]]; [contradiction| |].
  - now rewrite H.
  - rewrite Hdata.
    destruct (recreate_bodies_malformed _ d Hd Hbad next_id) as [e ->].
    reflexivity.
Qed.

Lemma X23_witness :
  load_simulation 7 "state.json"
    (<["state.json" :=
         mk_data [mk_body_data "Sun" SUN_MASS [0; 0; 0] [0; 0; 0] 20 "yellow" true;
                  mk_body_data "Earth" EARTH_MASS [AU] [0; 29780] 5 "blue" true]
           0 3600]> ∅)
    (Some (__init__ [sun] 60))
  = Some (__init__ [sun] 60).
Proof.
  apply X23_failed_load_keeps_simulator. right. right.
  eexists _, (mk_body_data "Earth" EARTH_MASS [AU] [0; 29780] 5 "blue" true).
  split; [apply lookup_insert_eq|]. split.
  - cbn. apply elem_of_cons. right. apply elem_of_cons. now left.
  - left. cbn. split; lia.
Defined.

End SaveLoad.
